(** * Carbon-footprint aggregator ([program.c]): embedding and properties

    The C program reads the attendee and activity rows of one event through
    libpq, adds up a per-row footprint in a [double] accumulator and writes
    the sum back with an [UPDATE].  The embedding below follows the program
    function by function:

    - [double] values are IEEE 754 binary64 numbers ([spec_float] with
      [prec = 53], [emax = 1024], round to nearest even); every operation
      of the source rounds once, as it does when the program is built by
      the command in its first line;
    - [char\[10\]] fields are lists of characters, filled by [strncpy] and
      inspected by [strcmp];
    - [snprintf] is given by what [%d] and [%f] print, [%f] rounding the
      exact value of the number to six decimals, ties to even;
    - the database behind the connection is an explicit state that [PQexec]
      threads through the three statements of the program; [PQclear] frees
      memory only and is left out. *)

From Stdlib Require Import ZArith List Bool Ascii String Lia.
From Stdlib Require Import SpecFloat QArith Qabs Permutation.
Import ListNotations.

Local Open Scope Z_scope.

(** ** Binary64 arithmetic *)

Module Double.

Definition prec : Z := 53.
Definition emax : Z := 1024.

Definition double : Type := spec_float.

Definition add : double -> double -> double := SFadd prec emax.
Definition mul : double -> double -> double := SFmul prec emax.
Definition div : double -> double -> double := SFdiv prec emax.

(** Conversion of a C [int] to [double] (exact on 32-bit integers). *)
Definition of_int (z : Z) : double := binary_normalize prec emax z 0 false.

(** The literal [0.0]. *)
Definition zero : double := S754_zero false.

(** The literals [0.24], [0.18] and [0.14]: the compiler turns each into
    the binary64 number nearest to the decimal fraction. *)
Definition lit_0_24 : double := S754_finite false 8646911284551352 (-55).
Definition lit_0_18 : double := S754_finite false 6485183463413514 (-55).
Definition lit_0_14 : double := S754_finite false 5044031582654956 (-55).

(** The largest finite binary64 number, [(2^53 - 1) * 2^971]. *)
Definition DBL_MAX : double := S754_finite false 9007199254740991 971.

Definition is_finite (x : double) : bool :=
  match x with
  | S754_zero _ | S754_finite _ _ _ => true
  | S754_infinity _ | S754_nan => false
  end.

Definition sign_bit (x : double) : bool :=
  match x with
  | S754_zero s | S754_infinity s | S754_finite s _ _ => s
  | S754_nan => false
  end.

(** The rational number a finite [double] stands for (0 for the others). *)
Definition pow2 (e : Z) : Q :=
  match e with
  | Z0 => 1%Q
  | Zpos p => inject_Z (2 ^ Zpos p)
  | Zneg p => Qmake 1 (2 ^ p)
  end.

Definition to_Q (x : double) : Q :=
  match x with
  | S754_finite s m e =>
      ((if s then inject_Z (Zneg m) else inject_Z (Zpos m)) * pow2 e)%Q
  | _ => 0%Q
  end.

End Double.

Import Double.

(** ** C strings in fixed-size buffers *)

Module CString.

Definition NUL : ascii := Ascii.zero.

Definition code (c : ascii) : Z := Z.of_N (N_of_ascii c).

(** The C string held by a Rocq [string]: the characters before the first
    NUL (all of them when there is none). *)
Fixpoint c_str (s : string) : string :=
  match s with
  | EmptyString => EmptyString
  | String c r => if Ascii.eqb c NUL then EmptyString else String c (c_str r)
  end.

(** The C string held by a buffer. *)
Fixpoint buf_str (b : list ascii) : string :=
  match b with
  | [] => EmptyString
  | c :: r => if Ascii.eqb c NUL then EmptyString else String c (buf_str r)
  end.

(** A buffer of [n] zero bytes (a zero-initialised [char\[n\]]). *)
Definition zeros (n : nat) : list ascii := repeat NUL n.

(** [strncpy dest src n]: the first [n] bytes of [dest] become the
    characters of [src] up to its terminator, padded with NUL; nothing is
    written after the [n]-th byte. *)
Fixpoint strncpy (dest : list ascii) (src : string) (n : nat) : list ascii :=
  match n, dest with
  | O, _ => dest
  | S _, [] => []
  | S n', _ :: d' =>
      match src with
      | EmptyString => NUL :: strncpy d' EmptyString n'
      | String c s' =>
          if Ascii.eqb c NUL then NUL :: strncpy d' EmptyString n'
          else c :: strncpy d' s' n'
      end
  end.

(** [strcmp s1 s2] on a buffer and a string literal: the difference of the
    first pair of bytes that differ, 0 when both strings end together. *)
Fixpoint strcmp (s1 : list ascii) (s2 : string) : Z :=
  match s1, s2 with
  | [], EmptyString => 0
  | [], String c2 _ => 0 - code c2
  | c1 :: _, EmptyString => code c1
  | c1 :: r1, String c2 r2 =>
      if Ascii.eqb c1 c2
      then (if Ascii.eqb c1 NUL then 0 else strcmp r1 r2)
      else code c1 - code c2
  end.

End CString.

Import CString.

(** ** The record structs and the per-row rules *)

(** [typedef struct { int id; char travel_mode\[10\]; double distance; } Attendee;] *)
Record Attendee : Type := mkAttendee {
  attendee_id : Z;
  travel_mode : list ascii;
  distance : double
}.

(** [typedef struct { int id; char activity_type\[10\]; } Activity;] *)
Record Activity : Type := mkActivity {
  activity_id : Z;
  activity_type : list ascii
}.

Definition calculate_attendee_footprint (attendee : Attendee) : double :=
  if strcmp (travel_mode attendee) "car" =? 0 then
    mul (distance attendee) lit_0_24
  else if strcmp (travel_mode attendee) "plane" =? 0 then
    mul (distance attendee) lit_0_18
  else if strcmp (travel_mode attendee) "train" =? 0 then
    mul (distance attendee) lit_0_14
  else zero.

Definition calculate_activity_footprint (activity : Activity) : double :=
  of_int (if strcmp (activity_type activity) "virtual" =? 0 then 10 else 50).

(** ** Formatted output: the [%d] and [%f] conversions of [snprintf] *)

Module Printf.

Definition digit (n : Z) : ascii := ascii_of_N (48 + Z.to_N (n mod 10)).

(** The decimal digits of [n >= 0], most significant first, at most [fuel]
    of them. *)
Fixpoint digits_upto (fuel : nat) (n : Z) : string :=
  match fuel with
  | O => EmptyString
  | S fuel' =>
      if n <? 10 then String (digit n) EmptyString
      else (digits_upto fuel' (n / 10) ++ String (digit n) EmptyString)%string
  end.

(** A number has no more decimal digits than binary ones. *)
Definition digits (n : Z) : string := digits_upto (S (Z.to_nat (Z.log2 n))) n.

(** The number that a string of decimal digits denotes. *)
Fixpoint number_of (s : string) (acc : Z) : Z :=
  match s with
  | EmptyString => acc
  | String c r => number_of r (10 * acc + (Z.of_N (N_of_ascii c) - 48))
  end.

(** [%d] *)
Definition printf_d (n : Z) : string :=
  if n <? 0 then ("-" ++ digits (- n))%string else digits n.

(** Nearest integer to [num / den] ([den > 0]), ties to the even one. *)
Definition round_half_even (num den : Z) : Z :=
  let q := num / den in
  let r := num mod den in
  match 2 * r ?= den with
  | Lt => q
  | Gt => q + 1
  | Eq => if Z.even q then q else q + 1
  end.

(** [m * 2^e * 10^6] rounded to an integer: the digits [%f] prints for the
    magnitude of a finite number, as a count of millionths. *)
Definition millionths (m : positive) (e : Z) : Z :=
  match e with
  | Zneg p => round_half_even (Zpos m * 1000000) (2 ^ Zpos p)
  | _ => Zpos m * 2 ^ e * 1000000
  end.

(** What [%f] prints: a sign and a decimal with six fractional digits, or
    one of the words [inf] and [nan].  ([spec_float] keeps no sign for a
    NaN, so the minus sign that may precede [nan] is not represented.) *)
Inductive conversion : Type :=
| Decimal (negative : bool) (micro : Z)
| Infinite (negative : bool)
| NotANumber.

Definition convert_f (x : double) : conversion :=
  match x with
  | S754_zero s => Decimal s 0
  | S754_finite s m e => Decimal s (millionths m e)
  | S754_infinity s => Infinite s
  | S754_nan => NotANumber
  end.

Definition six_digits (n : Z) : string :=
  String (digit (n / 100000)) (String (digit (n / 10000))
    (String (digit (n / 1000)) (String (digit (n / 100))
      (String (digit (n / 10)) (String (digit n) EmptyString))))).

Definition sign_text (negative : bool) : string :=
  if negative then "-"%string else EmptyString.

Definition text_f (c : conversion) : string :=
  match c with
  | Decimal s n =>
      (sign_text s ++ digits (n / 1000000) ++ "." ++ six_digits (n mod 1000000))%string
  | Infinite s => (sign_text s ++ "inf")%string
  | NotANumber => "nan"%string
  end.

(** [%f] *)
Definition printf_f (x : double) : string := text_f (convert_f x).

(** The number a printed decimal denotes. *)
Definition decimal_value (negative : bool) (micro : Z) : Q :=
  Qmake (if negative then - micro else micro) 1000000.

End Printf.

Import Printf.

(** ** libpq and the database behind the connection *)

Module Libpq.

Inductive ConnStatusType : Type := CONNECTION_OK | CONNECTION_BAD.

Inductive ExecStatusType : Type :=
| PGRES_COMMAND_OK
| PGRES_TUPLES_OK
| PGRES_FATAL_ERROR.

Definition conn_status_eqb (a b : ConnStatusType) : bool :=
  match a, b with
  | CONNECTION_OK, CONNECTION_OK | CONNECTION_BAD, CONNECTION_BAD => true
  | _, _ => false
  end.

Definition exec_status_eqb (a b : ExecStatusType) : bool :=
  match a, b with
  | PGRES_COMMAND_OK, PGRES_COMMAND_OK
  | PGRES_TUPLES_OK, PGRES_TUPLES_OK
  | PGRES_FATAL_ERROR, PGRES_FATAL_ERROR => true
  | _, _ => false
  end.

(** *** Tables *)

(** A row of [attendees] or [activities] holds the column values the
    program gets to see: the text of [travel_mode] and [activity_type] (the
    empty string for a NULL), and for [distance] the [double] that [atof]
    makes of the column.  [ev_carbon_footprint] is the exact decimal last
    assigned to the column; [ev_other_columns] stands for the rest of an
    event row. *)

Record AttendeeRow : Type := mkAttendeeRow {
  ar_id : Z;
  ar_event_id : Z;
  ar_travel_mode : string;
  ar_distance : double
}.

Record ActivityRow : Type := mkActivityRow {
  cr_id : Z;
  cr_event_id : Z;
  cr_activity_type : string
}.

Record EventRow : Type := mkEventRow {
  ev_id : Z;
  ev_carbon_footprint : Q;
  ev_other_columns : list string
}.

(** A table that does not exist is [None]: statements on it fail. *)
Record Database : Type := mkDatabase {
  attendees : option (list AttendeeRow);
  activities : option (list ActivityRow);
  events : option (list EventRow)
}.

(** *** Statements and results *)

(** The three statements the program formats into [query]. *)
Inductive Statement : Type :=
| SelectAttendees (event_id : Z)
| SelectActivities (event_id : Z)
| UpdateEvent (value : conversion) (event_id : Z).

(** [char query\[1024\]] *)
Definition query_size : nat := 1024.

(** A 32-bit [int]. *)
Definition int_range (n : Z) : Prop := - 2 ^ 31 <= n < 2 ^ 31.

(** The text [snprintf] writes for each of them.  It is never cut short:
    the longest one has 377 characters ([sql_fits_query] below). *)
Definition sql (q : Statement) : string :=
  match q with
  | SelectAttendees event_id =>
      ("SELECT id, travel_mode, distance FROM attendees WHERE event_id = "
         ++ printf_d event_id)%string
  | SelectActivities event_id =>
      ("SELECT id, activity_type FROM activities WHERE event_id = "
         ++ printf_d event_id)%string
  | UpdateEvent value event_id =>
      ("UPDATE events SET carbon_footprint = " ++ text_f value
         ++ " WHERE id = " ++ printf_d event_id)%string
  end.

(** A field of a result tuple.  libpq hands every field over as text; a
    field is kept here as the value the program's conversion of that text
    yields: [atoi] on an integer column, [atof] on a float column, the
    string itself on a text column.  The tuples of the two [SELECT]s are
    built by [attendee_tuple] and [activity_tuple] below, so each
    conversion only ever meets the kind of field it is meant for. *)
Inductive Cell : Type :=
| IntCell (z : Z)
| FloatCell (d : double)
| TextCell (s : string).

Definition atoi (c : Cell) : Z :=
  match c with IntCell z => z | _ => 0 end.

Definition atof (c : Cell) : double :=
  match c with FloatCell d => d | IntCell z => of_int z | TextCell _ => zero end.

Definition chars (c : Cell) : string :=
  match c with TextCell s => s | _ => EmptyString end.

Record PGresult : Type := mkPGresult {
  PQresultStatus : ExecStatusType;
  tuples : list (list Cell)
}.

Definition PQntuples (res : PGresult) : nat := List.length (tuples res).

Definition PQgetvalue (res : PGresult) (i j : nat) : Cell :=
  nth j (nth i (tuples res) []) (TextCell EmptyString).

(** *** Connections *)

(** [faults] schedules failures that do not come from the data: the next
    statement fails when the head of the list is [true].  [sent] records
    the statements passed to [PQexec], oldest first. *)
Record PGconn : Type := mkPGconn {
  PQstatus : ConnStatusType;
  database : Database;
  faults : list bool;
  sent : list Statement;
  PQerrorMessage : string;
  finished : bool
}.

Definition attendee_tuple (r : AttendeeRow) : list Cell :=
  [IntCell (ar_id r); TextCell (ar_travel_mode r); FloatCell (ar_distance r)].

Definition activity_tuple (r : ActivityRow) : list Cell :=
  [IntCell (cr_id r); TextCell (cr_activity_type r)].

(** The result of a successful [SELECT]: one tuple per row, in the order
    the server delivers the rows. *)
Definition attendee_result (rows : list AttendeeRow) : PGresult :=
  mkPGresult PGRES_TUPLES_OK (map attendee_tuple rows).

Definition activity_result (rows : list ActivityRow) : PGresult :=
  mkPGresult PGRES_TUPLES_OK (map activity_tuple rows).

Definition set_carbon_footprint (v : Q) (event_id : Z) (r : EventRow) : EventRow :=
  if ev_id r =? event_id
  then mkEventRow (ev_id r) v (ev_other_columns r)
  else r.

(** What a statement does to the data: the result and the database
    afterwards, or an error message.  A [SELECT] delivers the rows of the
    event in the order of the table.  An [UPDATE] assigns the decimal to
    every row with the given [id] (none is not an error); [inf] and [nan]
    are not numeric constants, so a statement that carries one fails. *)
Definition execute (d : Database) (q : Statement) : (PGresult * Database) + string :=
  match q with
  | SelectAttendees event_id =>
      match attendees d with
      | Some rows =>
          inl (attendee_result (filter (fun r => ar_event_id r =? event_id) rows), d)
      | None => inr "relation attendees does not exist"%string
      end
  | SelectActivities event_id =>
      match activities d with
      | Some rows =>
          inl (activity_result (filter (fun r => cr_event_id r =? event_id) rows), d)
      | None => inr "relation activities does not exist"%string
      end
  | UpdateEvent value event_id =>
      match events d, value with
      | Some rows, Decimal s n =>
          inl (mkPGresult PGRES_COMMAND_OK [],
               mkDatabase (attendees d) (activities d)
                 (Some (map (set_carbon_footprint (decimal_value s n) event_id) rows)))
      | Some _, _ => inr "column does not exist"%string
      | None, _ => inr "relation events does not exist"%string
      end
  end.

Definition PQexec (conn : PGconn) (q : Statement) : PGconn * PGresult :=
  let outcome :=
    if hd false (faults conn)
    then inr "server closed the connection unexpectedly"%string
    else execute (database conn) q in
  match outcome with
  | inl (res, d) =>
      (mkPGconn (PQstatus conn) d (tl (faults conn)) (sent conn ++ [q])
         (PQerrorMessage conn) (finished conn), res)
  | inr msg =>
      (mkPGconn (PQstatus conn) (database conn) (tl (faults conn)) (sent conn ++ [q])
         msg (finished conn), mkPGresult PGRES_FATAL_ERROR [])
  end.

Definition PQfinish (conn : PGconn) : PGconn :=
  mkPGconn (PQstatus conn) (database conn) (faults conn) (sent conn)
    (PQerrorMessage conn) true.

End Libpq.

Import Libpq.

(** ** The aggregation *)

(** The body of the first loop at index [i]: build the struct from the
    tuple.  The designated initialiser zeroes [travel_mode]; [strncpy] then
    writes its first nine bytes. *)
Definition attendee_at (res : PGresult) (i : nat) : Attendee :=
  let attendee :=
    mkAttendee (atoi (PQgetvalue res i 0)) (zeros 10) (atof (PQgetvalue res i 2)) in
  mkAttendee (attendee_id attendee)
    (strncpy (travel_mode attendee) (chars (PQgetvalue res i 1)) (10 - 1))
    (distance attendee).

Definition activity_at (res : PGresult) (i : nat) : Activity :=
  let activity := mkActivity (atoi (PQgetvalue res i 0)) (zeros 10) in
  mkActivity (activity_id activity)
    (strncpy (activity_type activity) (chars (PQgetvalue res i 1)) (10 - 1)).

(** [for (i = 0; i < nrows; i++) total_footprint += ...] *)
Definition attendee_loop (res : PGresult) (total_footprint : double) : double :=
  fold_left
    (fun total i => add total (calculate_attendee_footprint (attendee_at res i)))
    (seq 0 (PQntuples res)) total_footprint.

Definition activity_loop (res : PGresult) (total_footprint : double) : double :=
  fold_left
    (fun total i => add total (calculate_activity_footprint (activity_at res i)))
    (seq 0 (PQntuples res)) total_footprint.

(** The function returns [void]; its effects are the connection afterwards
    and the lines written to [stderr]. *)
Definition calculate_and_update_event_footprint (conn : PGconn) (event_id : Z)
  : PGconn * list string :=
  let total_footprint := zero in
  let '(conn, res) := PQexec conn (SelectAttendees event_id) in
  if negb (exec_status_eqb (PQresultStatus res) PGRES_TUPLES_OK) then
    (conn, [("SELECT attendees failed: " ++ PQerrorMessage conn)%string])
  else
    let total_footprint := attendee_loop res total_footprint in
    let '(conn, res) := PQexec conn (SelectActivities event_id) in
    if negb (exec_status_eqb (PQresultStatus res) PGRES_TUPLES_OK) then
      (conn, [("SELECT activities failed: " ++ PQerrorMessage conn)%string])
    else
      let total_footprint := activity_loop res total_footprint in
      let '(conn, res) :=
        PQexec conn (UpdateEvent (convert_f total_footprint) event_id) in
      if negb (exec_status_eqb (PQresultStatus res) PGRES_COMMAND_OK) then
        (conn, [("UPDATE event failed: " ++ PQerrorMessage conn)%string])
      else (conn, []).

Section Main.

(** The answer of the environment to the connection attempt. *)
Variable PQconnectdb : string -> PGconn.

Definition conninfo : string :=
  "dbname=your_database user=your_user password=your_password host=localhost".

(** [main] yields the exit status, the connection it leaves behind and
    the lines on [stderr]. *)
Definition main : Z * PGconn * list string :=
  let conn := PQconnectdb conninfo in
  if negb (conn_status_eqb (PQstatus conn) CONNECTION_OK) then
    (1, PQfinish conn,
     [("Connection to database failed: " ++ PQerrorMessage conn)%string])
  else
    let event_id := 1 in
    let '(conn, err) := calculate_and_update_event_footprint conn event_id in
    (0, PQfinish conn, err).

End Main.

(** ** Notions used in the statements *)

(** The structs the two loops build from a row of each table. *)
Definition attendee_of_row (r : AttendeeRow) : Attendee :=
  mkAttendee (ar_id r) (strncpy (zeros 10) (ar_travel_mode r) (10 - 1)) (ar_distance r).

Definition activity_of_row (r : ActivityRow) : Activity :=
  mkActivity (cr_id r) (strncpy (zeros 10) (cr_activity_type r) (10 - 1)).

(** The value of [total_footprint] when the [UPDATE] is formatted, from the
    results of the two reads. *)
Definition computed_total (attendee_res activity_res : PGresult) : double :=
  activity_loop activity_res (attendee_loop attendee_res zero).

(** The same, from the rows the two reads deliver. *)
Definition event_total (attendee_rows : list AttendeeRow)
  (activity_rows : list ActivityRow) : double :=
  computed_total (attendee_result attendee_rows) (activity_result activity_rows).

(** The per-row contributions, in the order of the rows. *)
Definition attendee_contributions (rows : list AttendeeRow) : list double :=
  map (fun r => calculate_attendee_footprint (attendee_of_row r)) rows.

Definition activity_contributions (rows : list ActivityRow) : list double :=
  map (fun r => calculate_activity_footprint (activity_of_row r)) rows.

(** Left-to-right binary64 summation from a starting value. *)
Definition running_sum (start : double) (xs : list double) : double :=
  fold_left add xs start.

(** Two versions of an event row that differ at most in the footprint, and
    not at all unless the row is the one of [event_id]. *)
Definition same_but_footprint (event_id : Z) (r r' : EventRow) : Prop :=
  ev_id r' = ev_id r /\
  ev_other_columns r' = ev_other_columns r /\
  (ev_id r <> event_id -> r' = r).

(** The statements the program can format: the identifier is an [int] and
    the value is what [%f] prints for a binary64 number. *)
Definition formatted (q : Statement) : Prop :=
  match q with
  | SelectAttendees e | SelectActivities e => int_range e
  | UpdateEvent v e =>
      int_range e /\ exists x, valid_binary prec emax x = true /\ v = convert_f x
  end.

Definition concerns (event_id : Z) (q : Statement) : Prop :=
  match q with
  | SelectAttendees e | SelectActivities e | UpdateEvent _ e => e = event_id
  end.

Definition is_select (q : Statement) : bool :=
  match q with
  | SelectAttendees _ | SelectActivities _ => true
  | UpdateEvent _ _ => false
  end.

(** What a run without faults leaves in the database. *)
Definition stored_after (d : Database) (event_id : Z) : Database :=
  match attendees d, activities d, events d with
  | Some rows, Some acts, Some evs =>
      match convert_f (event_total
                         (filter (fun r => ar_event_id r =? event_id) rows)
                         (filter (fun r => cr_event_id r =? event_id) acts)) with
      | Decimal s n =>
          mkDatabase (Some rows) (Some acts)
            (Some (map (set_carbon_footprint (decimal_value s n) event_id) evs))
      | _ => d
      end
  | _, _, _ => d
  end.


Definition fault_free (schedule : list bool) : Prop :=
  Forall (fun b => b = false) schedule.

Definition exit_status (r : Z * PGconn * list string) : Z := fst (fst r).
Definition final_conn (r : Z * PGconn * list string) : PGconn := snd (fst r).
Definition stderr_lines (r : Z * PGconn * list string) : list string := snd r.

(** ** Further notions *)

(** Unary minus on [double]. *)
Definition opp : double -> double := SFopp.

(** The travel modes with a coefficient. *)
Definition recognised (mode : string) : bool :=
  String.eqb mode "car" || String.eqb mode "plane" || String.eqb mode "train".

(** The rows a [SELECT] for [event_id] delivers from a table. *)
Definition attendees_of (event_id : Z) (rows : list AttendeeRow) : list AttendeeRow :=
  filter (fun r => ar_event_id r =? event_id) rows.

Definition activities_of (event_id : Z) (rows : list ActivityRow) : list ActivityRow :=
  filter (fun r => cr_event_id r =? event_id) rows.

(** The number of activity rows of either kind. *)
Definition count_virtual (acts : list ActivityRow) : Z :=
  Z.of_nat (List.length
              (filter (fun r => String.eqb (c_str (cr_activity_type r)) "virtual") acts)).

Definition count_other (acts : list ActivityRow) : Z :=
  Z.of_nat (List.length
              (filter (fun r => negb (String.eqb (c_str (cr_activity_type r)) "virtual"))
                 acts)).

(** ** Sample data *)

(** An open connection to a database, with a schedule of faults. *)
Definition connect (d : Database) (schedule : list bool) : PGconn :=
  mkPGconn CONNECTION_OK d schedule [] EmptyString false.

(** Event 1 with two attendees and two activities, next to another event. *)
Definition scenario_A : Database :=
  mkDatabase
    (Some [mkAttendeeRow 11 1 "car" (of_int 100);
           mkAttendeeRow 12 2 "train" (of_int 80);
           mkAttendeeRow 13 1 "plane" (of_int 50)])
    (Some [mkActivityRow 21 1 "virtual";
           mkActivityRow 22 1 "workshop";
           mkActivityRow 23 2 "virtual"])
    (Some [mkEventRow 1 (5 # 1) ["Conference"%string];
           mkEventRow 2 (7 # 1) ["Concert"%string]]).


(** The table of attendees is missing. *)
Definition scenario_D : Database :=
  mkDatabase None (activities scenario_A) (events scenario_A).



Definition car (id : Z) (d : Z) : AttendeeRow := mkAttendeeRow id 1 "car" (of_int d).
Definition virtual (id : Z) : ActivityRow := mkActivityRow id 1 "virtual".
Definition workshop (id : Z) : ActivityRow := mkActivityRow id 1 "workshop".

(** Turns a bound on the absolute value of a difference of fractions into
    inequalities between integers. *)
Ltac q_to_z :=
  apply Qabs_Qle_condition;
  unfold Qle, Qminus, Qplus, Qopp, Qmult, inject_Z, decimal_value;
  cbn [Qnum Qden].

(** * Properties *)

(** ** Strings *)

Lemma code_NUL : code NUL = 0.
Proof. reflexivity. Qed.

Lemma code_inj (c1 c2 : ascii) : code c1 = code c2 -> c1 = c2.
Proof.
  unfold code; intros H.
  apply N2Z.inj in H.
  rewrite <- (ascii_N_embedding c1), <- (ascii_N_embedding c2).
  now f_equal.
Qed.

Lemma code_eq0 (c : ascii) : (code c =? 0) = Ascii.eqb c NUL.
Proof.
  destruct (Ascii.eqb_spec c NUL) as [-> | Hne]; [reflexivity |].
  apply Z.eqb_neq; intros H; apply Hne, code_inj; now rewrite H.
Qed.

Lemma code_sub_eq0 (c1 c2 : ascii) : (code c1 - code c2 =? 0) = Ascii.eqb c1 c2.
Proof.
  destruct (Ascii.eqb_spec c1 c2) as [-> | Hne].
  - rewrite Z.sub_diag; reflexivity.
  - apply Z.eqb_neq; intros H; apply Hne, code_inj; lia.
Qed.

(** [strcmp] returns 0 exactly when the buffer and the literal hold the
    same C string. *)
Lemma strcmp_eqb (b : list ascii) (s : string) :
  (strcmp b s =? 0) = String.eqb (buf_str b) (c_str s).
Proof.
  revert s; induction b as [| c1 r IH]; intros [| c2 s]; simpl.
  - reflexivity.
  - destruct (Ascii.eqb_spec c2 NUL) as [-> | Hne]; [reflexivity |].
    apply Z.eqb_neq; intros H; apply Hne, code_inj; rewrite code_NUL; lia.
  - rewrite code_eq0. now destruct (Ascii.eqb c1 NUL).
  - destruct (Ascii.eqb_spec c1 c2) as [-> | Hne].
    + destruct (Ascii.eqb c2 NUL); [reflexivity |].
      simpl; rewrite Ascii.eqb_refl; apply IH.
    + rewrite code_sub_eq0.
      destruct (Ascii.eqb_spec c1 c2) as [E | _]; [contradiction |].
      destruct (Ascii.eqb_spec c1 NUL) as [E1 | N1];
        destruct (Ascii.eqb_spec c2 NUL) as [E2 | N2]; simpl; try reflexivity.
      * congruence.
      * destruct (Ascii.eqb_spec c1 c2); [contradiction | reflexivity].
Qed.

Lemma buf_str_cons (c : ascii) (r : list ascii) :
  Ascii.eqb c NUL = false -> buf_str (c :: r) = String c (buf_str r).
Proof. intros H; cbn [buf_str]; now rewrite H. Qed.

(** Copying at most [n] characters into a zeroed buffer of [n + 1] bytes
    cannot make a longer text pass for a literal shorter than [n]. *)
Lemma strncpy_eqb (n : nat) (t lit : string) :
  (String.length lit < n)%nat ->
  String.eqb (buf_str (strncpy (zeros (S n)) t n)) lit = String.eqb (c_str t) lit.
Proof.
  revert t lit; induction n as [| n IH]; intros t lit Hlen; [lia |].
  change (zeros (S (S n))) with (NUL :: zeros (S n)).
  destruct t as [| c t]; [reflexivity |].
  cbn [strncpy c_str].
  destruct (Ascii.eqb c NUL) eqn:Ec; [reflexivity |].
  rewrite (buf_str_cons _ _ Ec).
  destruct lit as [| c2 lit]; [reflexivity |].
  cbn [String.eqb].
  destruct (Ascii.eqb c c2); [| reflexivity].
  apply IH; cbn [String.length] in Hlen; lia.
Qed.

Lemma attendee_of_row_mode (r : AttendeeRow) (lit : string) :
  (String.length lit < 9)%nat ->
  String.eqb (buf_str (travel_mode (attendee_of_row r))) lit
  = String.eqb (c_str (ar_travel_mode r)) lit.
Proof. intros H; exact (strncpy_eqb 9 (ar_travel_mode r) lit H). Qed.

Lemma activity_of_row_type (r : ActivityRow) (lit : string) :
  (String.length lit < 9)%nat ->
  String.eqb (buf_str (activity_type (activity_of_row r))) lit
  = String.eqb (c_str (cr_activity_type r)) lit.
Proof. intros H; exact (strncpy_eqb 9 (cr_activity_type r) lit H). Qed.

(** ** The literals *)

(** Each literal is the correctly rounded quotient of two integers that
    binary64 holds exactly, hence the binary64 number nearest to the decimal
    fraction in the source. *)
Lemma literals_nearest :
  lit_0_24 = div (of_int 24) (of_int 100) /\
  lit_0_18 = div (of_int 18) (of_int 100) /\
  lit_0_14 = div (of_int 14) (of_int 100).
Proof. repeat split; vm_compute; reflexivity. Qed.

(** ** The per-row rules *)

(** C1: the footprint of an attendee is [distance * 0.24] when the travel
    mode is exactly [car], [distance * 0.18] when it is exactly [plane],
    [distance * 0.14] when it is exactly [train], and [0.0] for any other
    travel mode, the empty one included; the comparison is an exact,
    case-sensitive match of the C string in the buffer, which for a row
    read from the database is the text of its [travel_mode] column. *)
Theorem calculate_attendee_footprint_rule (attendee : Attendee) (r : AttendeeRow) :
  calculate_attendee_footprint attendee =
    (if String.eqb (buf_str (travel_mode attendee)) "car" then
       mul (distance attendee) lit_0_24
     else if String.eqb (buf_str (travel_mode attendee)) "plane" then
       mul (distance attendee) lit_0_18
     else if String.eqb (buf_str (travel_mode attendee)) "train" then
       mul (distance attendee) lit_0_14
     else zero) /\
  calculate_attendee_footprint (attendee_of_row r) =
    (if String.eqb (c_str (ar_travel_mode r)) "car" then
       mul (ar_distance r) lit_0_24
     else if String.eqb (c_str (ar_travel_mode r)) "plane" then
       mul (ar_distance r) lit_0_18
     else if String.eqb (c_str (ar_travel_mode r)) "train" then
       mul (ar_distance r) lit_0_14
     else zero).
Proof.
  assert (Rule : forall a, calculate_attendee_footprint a =
    (if String.eqb (buf_str (travel_mode a)) "car" then mul (distance a) lit_0_24
     else if String.eqb (buf_str (travel_mode a)) "plane" then mul (distance a) lit_0_18
     else if String.eqb (buf_str (travel_mode a)) "train" then mul (distance a) lit_0_14
     else zero)).
  { intros a; unfold calculate_attendee_footprint; now rewrite !strcmp_eqb. }
  split; [apply Rule |].
  rewrite Rule, !attendee_of_row_mode by (cbn; lia).
  reflexivity.
Qed.

(** The rule on a few travel modes: matching is case-sensitive, nothing is
    trimmed, and an unknown mode contributes 0.0 whatever the distance. *)
Lemma attendee_footprint_examples (id event_id : Z) (d : double) :
  calculate_attendee_footprint (attendee_of_row (mkAttendeeRow id event_id "car" d))
  = mul d lit_0_24 /\
  calculate_attendee_footprint (attendee_of_row (mkAttendeeRow id event_id "Car" d))
  = zero /\
  calculate_attendee_footprint (attendee_of_row (mkAttendeeRow id event_id " car" d))
  = zero /\
  calculate_attendee_footprint (attendee_of_row (mkAttendeeRow id event_id "bike" d))
  = zero /\
  calculate_attendee_footprint (attendee_of_row (mkAttendeeRow id event_id EmptyString d))
  = zero.
Proof. repeat split. Qed.

(** C2: the footprint of an activity is 10 when the activity type is
    exactly [virtual] and 50 for any other type, the empty one included. *)
Theorem calculate_activity_footprint_rule (activity : Activity) (r : ActivityRow) :
  calculate_activity_footprint activity =
    (if String.eqb (buf_str (activity_type activity)) "virtual"
     then of_int 10 else of_int 50) /\
  calculate_activity_footprint (activity_of_row r) =
    (if String.eqb (c_str (cr_activity_type r)) "virtual"
     then of_int 10 else of_int 50).
Proof.
  assert (Rule : forall a, calculate_activity_footprint a =
    (if String.eqb (buf_str (activity_type a)) "virtual" then of_int 10 else of_int 50)).
  { intros a; unfold calculate_activity_footprint.
    rewrite strcmp_eqb; simpl c_str.
    now destruct (String.eqb _ _). }
  split; [apply Rule |].
  rewrite Rule, activity_of_row_type by (cbn; lia).
  reflexivity.
Qed.

(** The two constants are the integers 10 and 50 as binary64 numbers. *)
Lemma activity_footprint_values :
  to_Q (of_int 10) == 10 # 1 /\ to_Q (of_int 50) == 50 # 1.
Proof. split; vm_compute; reflexivity. Qed.

(** ** The two loops *)

Section IndexLoop.

Context {A B : Type} (step : B -> A -> B) (d : A).

(** A [for] loop over the indices of a list visits its elements in order. *)
Lemma index_loop_from (pre l : list A) (b : B) :
  fold_left (fun acc i => step acc (nth i (pre ++ l) d))
    (seq (List.length pre) (List.length l)) b
  = fold_left step l b.
Proof.
  revert pre b; induction l as [| x l IH]; intros pre b; [reflexivity |].
  cbn [List.length seq fold_left].
  rewrite nth_middle.
  specialize (IH (pre ++ [x]) (step b x)).
  rewrite <- app_assoc, length_app, Nat.add_1_r in IH.
  exact IH.
Qed.

Lemma index_loop (l : list A) (b : B) :
  fold_left (fun acc i => step acc (nth i l d)) (seq 0 (List.length l)) b
  = fold_left step l b.
Proof. exact (index_loop_from [] l b). Qed.

End IndexLoop.

Lemma fold_left_map {A B C : Type} (f : C -> B -> C) (g : A -> B) (l : list A) (c : C) :
  fold_left f (map g l) c = fold_left (fun acc x => f acc (g x)) l c.
Proof. revert c; induction l as [| x l IH]; intros c; [reflexivity | apply IH]. Qed.

Lemma fold_left_ext_in {A B : Type} (f g : B -> A -> B) (l : list A) (b : B) :
  (forall x acc, In x l -> f acc x = g acc x) ->
  fold_left f l b = fold_left g l b.
Proof.
  revert b; induction l as [| x l IH]; intros b H; [reflexivity |].
  cbn [fold_left]; rewrite (H x b) by now left.
  apply IH; intros y acc Hy; apply H; now right.
Qed.

Lemma attendee_loop_rows (rows : list AttendeeRow) (start : double) :
  attendee_loop (attendee_result rows) start
  = running_sum start (map (fun r => calculate_attendee_footprint (attendee_of_row r)) rows).
Proof.
  unfold attendee_loop, running_sum, PQntuples, attendee_result; cbn [tuples].
  rewrite fold_left_map.
  rewrite <- (index_loop
    (fun acc t => add acc (calculate_attendee_footprint (attendee_of_row t))) 
    (mkAttendeeRow 0 0 EmptyString zero) rows start).
  rewrite length_map.
  apply fold_left_ext_in; intros i acc Hi.
  apply in_seq in Hi.
  unfold attendee_at, PQgetvalue; cbn [tuples].
  rewrite (nth_indep _ [] (attendee_tuple (mkAttendeeRow 0 0 EmptyString zero)))
    by (rewrite length_map; lia).
  now rewrite map_nth.
Qed.

Lemma activity_loop_rows (rows : list ActivityRow) (start : double) :
  activity_loop (activity_result rows) start
  = running_sum start (map (fun r => calculate_activity_footprint (activity_of_row r)) rows).
Proof.
  unfold activity_loop, running_sum, PQntuples, activity_result; cbn [tuples].
  rewrite fold_left_map.
  rewrite <- (index_loop
    (fun acc t => add acc (calculate_activity_footprint (activity_of_row t)))
    (mkActivityRow 0 0 EmptyString) rows start).
  rewrite length_map.
  apply fold_left_ext_in; intros i acc Hi.
  apply in_seq in Hi.
  unfold activity_at, PQgetvalue; cbn [tuples].
  rewrite (nth_indep _ [] (activity_tuple (mkActivityRow 0 0 EmptyString)))
    by (rewrite length_map; lia).
  now rewrite map_nth.
Qed.

(** ** One run of the function *)

Lemma exec_status_eqb_eq (a b : ExecStatusType) : exec_status_eqb a b = true <-> a = b.
Proof. destruct a, b; simpl; split; congruence. Qed.

Lemma exec_status_eqb_neq (a b : ExecStatusType) : exec_status_eqb a b = false <-> a <> b.
Proof. destruct a, b; simpl; split; congruence. Qed.

Lemma PQexec_sent (conn : PGconn) (q : Statement) :
  sent (fst (PQexec conn q)) = sent conn ++ [q].
Proof.
  unfold PQexec.
  destruct (if hd false (faults conn) then _ else _) as [[res d] | msg]; reflexivity.
Qed.

Lemma PQexec_faults (conn : PGconn) (q : Statement) :
  faults (fst (PQexec conn q)) = tl (faults conn).
Proof.
  unfold PQexec.
  destruct (if hd false (faults conn) then _ else _) as [[res d] | msg]; reflexivity.
Qed.

(** A failed statement leaves the data as it was. *)
Lemma PQexec_failure_database (conn : PGconn) (q : Statement) :
  PQresultStatus (snd (PQexec conn q)) = PGRES_FATAL_ERROR ->
  database (fst (PQexec conn q)) = database conn.
Proof.
  unfold PQexec.
  destruct (hd false (faults conn)); [reflexivity |].
  destruct q as [e | e | v e]; cbn [execute].
  - destruct (attendees (database conn)); [discriminate | reflexivity].
  - destruct (activities (database conn)); [discriminate | reflexivity].
  - destruct (events (database conn)), v; try discriminate; reflexivity.
Qed.

(** A [SELECT] leaves the data as it was. *)
Lemma PQexec_select_attendees_database (conn : PGconn) (event_id : Z) :
  database (fst (PQexec conn (SelectAttendees event_id))) = database conn.
Proof.
  unfold PQexec.
  destruct (hd false (faults conn)); [reflexivity |]; cbn [execute].
  destruct (attendees (database conn)); reflexivity.
Qed.

Lemma PQexec_select_activities_database (conn : PGconn) (event_id : Z) :
  database (fst (PQexec conn (SelectActivities event_id))) = database conn.
Proof.
  unfold PQexec.
  destruct (hd false (faults conn)); [reflexivity |]; cbn [execute].
  destruct (activities (database conn)); reflexivity.
Qed.

(** The control flow of the function, with the three calls of [PQexec]
    named. *)
Lemma calculate_and_update_event_footprint_eq (conn : PGconn) (event_id : Z) :
  let r1 := PQexec conn (SelectAttendees event_id) in
  let r2 := PQexec (fst r1) (SelectActivities event_id) in
  let r3 := PQexec (fst r2)
              (UpdateEvent (convert_f (computed_total (snd r1) (snd r2))) event_id) in
  calculate_and_update_event_footprint conn event_id =
    if exec_status_eqb (PQresultStatus (snd r1)) PGRES_TUPLES_OK then
      if exec_status_eqb (PQresultStatus (snd r2)) PGRES_TUPLES_OK then
        if exec_status_eqb (PQresultStatus (snd r3)) PGRES_COMMAND_OK then (fst r3, [])
        else (fst r3, [("UPDATE event failed: " ++ PQerrorMessage (fst r3))%string])
      else (fst r2, [("SELECT activities failed: " ++ PQerrorMessage (fst r2))%string])
    else (fst r1, [("SELECT attendees failed: " ++ PQerrorMessage (fst r1))%string]).
Proof.
  cbv zeta; unfold calculate_and_update_event_footprint, computed_total.
  destruct (PQexec conn (SelectAttendees event_id)) as [c1 res1]; cbn [fst snd].
  destruct (exec_status_eqb (PQresultStatus res1) PGRES_TUPLES_OK); cbn [negb];
    [| reflexivity].
  destruct (PQexec c1 (SelectActivities event_id)) as [c2 res2]; cbn [fst snd].
  destruct (exec_status_eqb (PQresultStatus res2) PGRES_TUPLES_OK); cbn [negb];
    [| reflexivity].
  destruct (PQexec c2 _) as [c3 res3]; cbn [fst snd].
  destruct (exec_status_eqb (PQresultStatus res3) PGRES_COMMAND_OK); reflexivity.
Qed.



(** ** The total *)

Lemma event_total_eq (rows : list AttendeeRow) (acts : list ActivityRow) :
  event_total rows acts
  = running_sum zero (attendee_contributions rows ++ activity_contributions acts).
Proof.
  unfold event_total, computed_total.
  rewrite attendee_loop_rows, activity_loop_rows.
  unfold running_sum, attendee_contributions, activity_contributions.
  now rewrite fold_left_app.
Qed.

(** C3, as stated, fails: binary64 addition rounds, so the order of the
    rows can change the total.  Three attendees travelling by car over 1, 2
    and 7 give 2.4 in one order and 2.4000000000000004 in another; one
    attendee followed by a virtual and a non-virtual activity gives
    60.480000000000004, but 60.48 with the two activities swapped, which is
    also what adding the attendee sum to the activity sum gives. *)
Lemma fetch_order_changes_total :
  (Permutation [car 1 1; car 2 2; car 3 7] [car 2 2; car 3 7; car 1 1] /\
   event_total [car 1 1; car 2 2; car 3 7] []
   <> event_total [car 2 2; car 3 7; car 1 1] []) /\
  (Permutation [virtual 1; workshop 2] [workshop 2; virtual 1] /\
   event_total [car 1 2] [virtual 1; workshop 2]
   <> event_total [car 1 2] [workshop 2; virtual 1]) /\
  event_total [car 1 2] [virtual 1; workshop 2]
  <> add (running_sum zero (attendee_contributions [car 1 2]))
         (running_sum zero (activity_contributions [virtual 1; workshop 2])).
Proof.
  split; [| split].
  - split.
    + apply (Permutation_cons_app [car 2 2; car 3 7] []); apply Permutation_refl.
    + vm_compute; discriminate.
  - split.
    + apply perm_swap.
    + vm_compute; discriminate.
  - vm_compute; discriminate.
Qed.

(** C3, amended: the total is the binary64 running sum, started at 0.0 and
    taken left to right, of the attendee contributions in fetch order
    followed by the activity contributions in fetch order; another fetch
    order supplies the same contributions in another order. *)
Theorem event_total_running_sum
  (rows rows' : list AttendeeRow) (acts acts' : list ActivityRow) :
  event_total rows acts
  = running_sum zero (attendee_contributions rows ++ activity_contributions acts)
  /\ (Permutation rows rows' -> Permutation acts acts' ->
      Permutation (attendee_contributions rows ++ activity_contributions acts)
                  (attendee_contributions rows' ++ activity_contributions acts')).
Proof.
  split; [apply event_total_eq |].
  intros Hr Ha.
  apply Permutation_app; now apply Permutation_map.
Qed.

Lemma event_total_running_sum_witness :
  event_total [car 1 1; car 2 2; car 3 7] [virtual 1; workshop 2]
  = running_sum zero (attendee_contributions [car 1 1; car 2 2; car 3 7]
                      ++ activity_contributions [virtual 1; workshop 2])
  /\ Permutation
       (attendee_contributions [car 1 1; car 2 2; car 3 7]
        ++ activity_contributions [virtual 1; workshop 2])
       (attendee_contributions [car 2 2; car 1 1; car 3 7]
        ++ activity_contributions [workshop 2; virtual 1]).
Proof.
  destruct (event_total_running_sum
              [car 1 1; car 2 2; car 3 7] [car 2 2; car 1 1; car 3 7]
              [virtual 1; workshop 2] [workshop 2; virtual 1]) as [Hsum Hperm].
  split; [exact Hsum |].
  apply Hperm; apply perm_swap.
Defined.

(** C6: attendees [(car, 100), (plane, 50)] and activities [virtual,
    workshop] give the total 93.0 exactly, whatever the identifiers of the
    rows; on the sample database the function then sends
    [UPDATE events SET carbon_footprint = 93.000000 WHERE id = 1]. *)
Theorem scenario_A_total (id1 id2 id3 id4 event_id : Z) :
  event_total
    [mkAttendeeRow id1 event_id "car" (of_int 100);
     mkAttendeeRow id2 event_id "plane" (of_int 50)]
    [mkActivityRow id3 event_id "virtual";
     mkActivityRow id4 event_id "workshop"]
  = of_int 93
  /\ map sql (sent (fst (calculate_and_update_event_footprint (connect scenario_A []) 1)))
     = ["SELECT id, travel_mode, distance FROM attendees WHERE event_id = 1";
        "SELECT id, activity_type FROM activities WHERE event_id = 1";
        "UPDATE events SET carbon_footprint = 93.000000 WHERE id = 1"]%string.
Proof.
  split.
  - rewrite event_total_eq. vm_compute. reflexivity.
  - vm_compute. reflexivity.
Qed.

(** ** Failed reads *)

(** C4: when the attendee read fails the function returns after that one
    statement, without the activity read and without the write; when the
    activity read fails it returns after the two reads, without the write;
    in both cases the stored data are as before. *)
Theorem read_failure_aborts (conn : PGconn) (event_id : Z) :
  let r1 := PQexec conn (SelectAttendees event_id) in
  let r2 := PQexec (fst r1) (SelectActivities event_id) in
  let after := fst (calculate_and_update_event_footprint conn event_id) in
  (PQresultStatus (snd r1) <> PGRES_TUPLES_OK ->
   sent after = sent conn ++ [SelectAttendees event_id] /\
   database after = database conn) /\
  (PQresultStatus (snd r1) = PGRES_TUPLES_OK ->
   PQresultStatus (snd r2) <> PGRES_TUPLES_OK ->
   sent after = sent conn ++ [SelectAttendees event_id; SelectActivities event_id] /\
   database after = database conn).
Proof.
  cbv zeta; rewrite calculate_and_update_event_footprint_eq; cbv zeta.
  split.
  - intros H1; apply exec_status_eqb_neq in H1; rewrite H1; cbn [fst].
    split; [apply PQexec_sent | apply PQexec_select_attendees_database].
  - intros H1 H2; apply exec_status_eqb_eq in H1; apply exec_status_eqb_neq in H2.
    rewrite H1, H2; cbn [fst].
    split.
    + now rewrite !PQexec_sent, <- app_assoc.
    + now rewrite PQexec_select_activities_database, PQexec_select_attendees_database.
Qed.

Lemma read_failure_aborts_witness :
  (sent (fst (calculate_and_update_event_footprint (connect scenario_D []) 1))
   = [SelectAttendees 1] /\
   database (fst (calculate_and_update_event_footprint (connect scenario_D []) 1))
   = scenario_D) /\
  (sent (fst (calculate_and_update_event_footprint (connect scenario_A [false; true]) 1))
   = [SelectAttendees 1; SelectActivities 1] /\
   database (fst (calculate_and_update_event_footprint (connect scenario_A [false; true]) 1))
   = scenario_A).
Proof.
  split.
  - apply (proj1 (read_failure_aborts (connect scenario_D []) 1)).
    vm_compute; discriminate.
  - apply (proj2 (read_failure_aborts (connect scenario_A [false; true]) 1)).
    + vm_compute; reflexivity.
    + vm_compute; discriminate.
Defined.

(** ** The exit status *)

(** C5: the process exits with status 1 exactly when the connection is not
    established and with status 0 otherwise; once connected, whatever the
    three statements do only reaches [stderr]. *)
Theorem main_exit_status (PQconnectdb : string -> PGconn) :
  let conn := PQconnectdb conninfo in
  (exit_status (main PQconnectdb) = 1 <-> PQstatus conn <> CONNECTION_OK) /\
  (exit_status (main PQconnectdb) = 0 <-> PQstatus conn = CONNECTION_OK) /\
  (PQstatus conn = CONNECTION_OK ->
   exit_status (main PQconnectdb) = 0 /\
   final_conn (main PQconnectdb)
   = PQfinish (fst (calculate_and_update_event_footprint conn 1)) /\
   stderr_lines (main PQconnectdb)
   = snd (calculate_and_update_event_footprint conn 1)).
Proof.
  cbv zeta; unfold main, exit_status, final_conn, stderr_lines.
  destruct (PQstatus (PQconnectdb conninfo)) eqn:E; cbn [conn_status_eqb negb].
  - destruct (calculate_and_update_event_footprint _ 1) as [c err]; cbn [fst snd].
    repeat split; intros; try congruence; try discriminate.
  - cbn [fst snd]. repeat split; intros; try congruence; try discriminate.
Qed.

Lemma main_exit_status_witness :
  exit_status (main (fun _ => connect scenario_D [])) = 0 /\
  final_conn (main (fun _ => connect scenario_D []))
  = PQfinish (fst (calculate_and_update_event_footprint (connect scenario_D []) 1)) /\
  stderr_lines (main (fun _ => connect scenario_D []))
  = snd (calculate_and_update_event_footprint (connect scenario_D []) 1).
Proof.
  apply (proj2 (proj2 (main_exit_status (fun _ => connect scenario_D [])))).
  reflexivity.
Defined.

(** ** The write *)

Lemma set_carbon_footprint_same (v : Q) (event_id : Z) (r : EventRow) :
  same_but_footprint event_id r (set_carbon_footprint v event_id r).
Proof.
  unfold same_but_footprint, set_carbon_footprint.
  destruct (Z.eqb_spec (ev_id r) event_id) as [E | N]; cbn; intuition congruence.
Qed.



Lemma same_but_footprint_refl (event_id : Z) (rows : list EventRow) :
  Forall2 (same_but_footprint event_id) rows rows.
Proof.
  induction rows as [| r rows IH]; constructor; [| exact IH].
  unfold same_but_footprint; auto.
Qed.

Lemma same_but_footprint_map (v : Q) (event_id : Z) (rows : list EventRow) :
  Forall2 (same_but_footprint event_id) rows (map (set_carbon_footprint v event_id) rows).
Proof.
  induction rows as [| r rows IH]; cbn [map]; constructor;
    [apply set_carbon_footprint_same | exact IH].
Qed.

(** The two outcomes of an [UPDATE]. *)
Lemma PQexec_update_cases (conn : PGconn) (v : conversion) (event_id : Z) :
  let r := PQexec conn (UpdateEvent v event_id) in
  (PQresultStatus (snd r) = PGRES_COMMAND_OK /\
   exists rows s n,
     events (database conn) = Some rows /\ v = Decimal s n /\
     database (fst r)
     = mkDatabase (attendees (database conn)) (activities (database conn))
         (Some (map (set_carbon_footprint (decimal_value s n) event_id) rows)))
  \/ (PQresultStatus (snd r) = PGRES_FATAL_ERROR /\ database (fst r) = database conn).
Proof.
  cbv zeta; unfold PQexec.
  destruct (hd false (faults conn)); [right; split; reflexivity |].
  cbn [execute].
  destruct (events (database conn)) as [rows |]; [| right; split; reflexivity].
  destruct v as [s n | s |]; try (right; split; reflexivity).
  left; split; [reflexivity |].
  exists rows, s, n; repeat split.
Qed.

(** C9: on every path the attendee and activity tables are as before, every
    event row keeps its identifier and its other columns, and no row but
    the one of [event_id] changes at all; the statements sent all concern
    [event_id] and at most one of them, the [UPDATE], is not a [SELECT]. *)
Theorem only_event_footprint_modified (conn : PGconn) (event_id : Z) :
  let after := fst (calculate_and_update_event_footprint conn event_id) in
  attendees (database after) = attendees (database conn) /\
  activities (database after) = activities (database conn) /\
  match events (database conn), events (database after) with
  | Some rows, Some rows' => Forall2 (same_but_footprint event_id) rows rows'
  | None, None => True
  | _, _ => False
  end /\
  exists new,
    sent after = sent conn ++ new /\
    Forall (concerns event_id) new /\
    (List.length (filter (fun q => negb (is_select q)) new) <= 1)%nat.
Proof.
  cbv zeta; rewrite calculate_and_update_event_footprint_eq; cbv zeta.
  set (r1 := PQexec conn (SelectAttendees event_id)).
  set (r2 := PQexec (fst r1) (SelectActivities event_id)).
  set (q3 := UpdateEvent _ event_id).
  assert (D1 : database (fst r1) = database conn)
    by apply PQexec_select_attendees_database.
  assert (D2 : database (fst r2) = database conn)
    by (unfold r2; now rewrite PQexec_select_activities_database).
  assert (S1 : sent (fst r1) = sent conn ++ [SelectAttendees event_id])
    by apply PQexec_sent.
  assert (S2 : sent (fst r2)
               = sent conn ++ [SelectAttendees event_id; SelectActivities event_id])
    by (unfold r2; now rewrite PQexec_sent, S1, <- app_assoc).
  assert (Same : match events (database conn), events (database conn) with
                 | Some rows, Some rows' => Forall2 (same_but_footprint event_id) rows rows'
                 | None, None => True
                 | _, _ => False
                 end)
    by (destruct (events (database conn)); [apply same_but_footprint_refl | exact I]).
  destruct (exec_status_eqb (PQresultStatus (snd r1)) PGRES_TUPLES_OK).
  2:{ cbn [fst]; rewrite D1; repeat split; trivial.
      exists [SelectAttendees event_id].
      split; [trivial | split; [repeat constructor | cbn; lia]]. }
  destruct (exec_status_eqb (PQresultStatus (snd r2)) PGRES_TUPLES_OK).
  2:{ cbn [fst]; rewrite D2; repeat split; trivial.
      exists [SelectAttendees event_id; SelectActivities event_id].
      split; [trivial | split; [repeat constructor | cbn; lia]]. }
  assert (S3 : sent (fst (PQexec (fst r2) q3))
               = sent conn ++ [SelectAttendees event_id; SelectActivities event_id; q3])
    by (now rewrite PQexec_sent, S2, <- app_assoc).
  assert (New : exists new,
             sent (fst (PQexec (fst r2) q3)) = sent conn ++ new /\
             Forall (concerns event_id) new /\
             (List.length (filter (fun q => negb (is_select q)) new) <= 1)%nat).
  { exists [SelectAttendees event_id; SelectActivities event_id; q3].
    split; [trivial | split; [repeat constructor | cbn; lia]]. }
  assert (Frame :
    attendees (database (fst (PQexec (fst r2) q3))) = attendees (database conn) /\
    activities (database (fst (PQexec (fst r2) q3))) = activities (database conn) /\
    match events (database conn), events (database (fst (PQexec (fst r2) q3))) with
    | Some rows, Some rows' => Forall2 (same_but_footprint event_id) rows rows'
    | None, None => True
    | _, _ => False
    end).
  { destruct (PQexec_update_cases (fst r2) (convert_f (computed_total (snd r1) (snd r2)))
                event_id) as [[_ (rows & s & n & Ev & _ & Db)] | [_ Db]];
      fold q3 in Db; rewrite Db.
    - rewrite D2 in *; cbn [attendees activities events]; repeat split.
      rewrite Ev; apply same_but_footprint_map.
    - rewrite D2; repeat split; exact Same. }
  destruct Frame as (G1 & G2 & G3).
  destruct (exec_status_eqb _ PGRES_COMMAND_OK); cbn [fst]; repeat split; trivial.
Qed.





(** ** Runs without faults *)

Lemma fault_free_hd (l : list bool) : fault_free l -> hd false l = false.
Proof. intros H; destruct H; [reflexivity | assumption]. Qed.

Lemma fault_free_tl (l : list bool) : fault_free l -> fault_free (tl l).
Proof. intros H; destruct H; [constructor | assumption]. Qed.

Lemma PQexec_no_fault (conn : PGconn) (q : Statement) :
  hd false (faults conn) = false ->
  PQexec conn q =
    match execute (database conn) q with
    | inl (res, d) =>
        (mkPGconn (PQstatus conn) d (tl (faults conn)) (sent conn ++ [q])
           (PQerrorMessage conn) (finished conn), res)
    | inr msg =>
        (mkPGconn (PQstatus conn) (database conn) (tl (faults conn)) (sent conn ++ [q])
           msg (finished conn), mkPGresult PGRES_FATAL_ERROR [])
    end.
Proof. intros H; unfold PQexec; now rewrite H. Qed.

(** Without faults the database after a run is [stored_after]. *)
Lemma run_without_faults (conn : PGconn) (event_id : Z) :
  fault_free (faults conn) ->
  database (fst (calculate_and_update_event_footprint conn event_id))
  = stored_after (database conn) event_id
  /\ fault_free (faults (fst (calculate_and_update_event_footprint conn event_id))).
Proof.
  intros F.
  pose proof (fault_free_hd _ F) as H1.
  pose proof (fault_free_tl _ F) as F1.
  pose proof (fault_free_hd _ F1) as H2.
  pose proof (fault_free_tl _ F1) as F2.
  pose proof (fault_free_hd _ F2) as H3.
  pose proof (fault_free_tl _ F2) as F3.
  unfold calculate_and_update_event_footprint, stored_after.
  rewrite (PQexec_no_fault conn _ H1); cbn [execute].
  destruct (attendees (database conn)) as [rows |] eqn:EA; cbn; [| now split].
  rewrite PQexec_no_fault by exact H2; cbn [execute database].
  destruct (activities (database conn)) as [acts |] eqn:EB; cbn; [| now split].
  rewrite PQexec_no_fault by exact H3; cbn [execute database].
  fold (computed_total
          (attendee_result (filter (fun r => ar_event_id r =? event_id) rows))
          (activity_result (filter (fun r => cr_event_id r =? event_id) acts))).
  fold (event_total (filter (fun r => ar_event_id r =? event_id) rows)
                    (filter (fun r => cr_event_id r =? event_id) acts)).
  destruct (events (database conn)) as [evs |] eqn:EE; cbn.
  - destruct (convert_f _) as [s n | s |]; cbn; rewrite ?EA, ?EB; now split.
  - now split.
Qed.


(** ** What the total depends on *)





(** ** The decimal that is sent *)

Lemma round_half_even_nearest (num den : Z) :
  0 < den -> 2 * Z.abs (round_half_even num den * den - num) <= den.
Proof.
  intros Hden; unfold round_half_even.
  pose proof (Z.div_mod num den ltac:(lia)) as Hdm.
  pose proof (Z.mod_pos_bound num den Hden) as Hr.
  set (q := num / den) in *; set (r := num mod den) in *.
  destruct (Z.compare_spec (2 * r) den) as [E | L | G];
    [destruct (Z.even q) |..]; nia.
Qed.

Lemma round_half_even_nonneg (num den : Z) :
  0 < den -> 0 <= num -> 0 <= round_half_even num den.
Proof.
  intros Hden Hnum; unfold round_half_even.
  pose proof (Z.div_pos num den Hnum Hden).
  destruct (2 * (num mod den) ?= den); [destruct (Z.even _) |..]; lia.
Qed.

Lemma millionths_nonneg (m : positive) (e : Z) : 0 <= millionths m e.
Proof.
  destruct e as [| p | p]; unfold millionths.
  - lia.
  - pose proof (Z.pow_pos_nonneg 2 (Zpos p)); nia.
  - apply round_half_even_nonneg; lia.
Qed.

(** The count of millionths is the integer nearest to the magnitude times
    [10^6]. *)
Lemma millionths_nearest (s : bool) (m : positive) (e : Z) :
  (Qabs (decimal_value s (millionths m e) - to_Q (S754_finite s m e)) <= 1 # 2000000)%Q.
Proof.
  unfold to_Q.
  destruct e as [| p | p]; unfold millionths, pow2.
  - destruct s; q_to_z; lia.
  - destruct s; q_to_z; lia.
  - pose proof (round_half_even_nearest (Zpos m * 1000000) (2 ^ Zpos p) ltac:(lia)) as H.
    set (n := round_half_even _ _) in *.
    destruct s; q_to_z;
      rewrite !Pos2Z.inj_mul, Pos2Z.inj_pow;
      set (d := 2 ^ Zpos p) in *;
      assert (0 < d) by (unfold d; lia);
      split; nia.
Qed.

Lemma convert_f_finite (x : double) :
  is_finite x = true ->
  exists n,
    0 <= n /\
    convert_f x = Decimal (sign_bit x) n /\
    (Qabs (decimal_value (sign_bit x) n - to_Q x) <= 1 # 2000000)%Q.
Proof.
  destruct x as [s | s | | s m e]; try discriminate; intros _.
  - exists 0; repeat split; [lia |].
    destruct s; vm_compute; discriminate.
  - exists (millionths m e); repeat split.
    + apply millionths_nonneg.
    + apply millionths_nearest.
Qed.

Lemma convert_f_not_finite (x : double) :
  is_finite x = false ->
  In (text_f (convert_f x)) ["inf"; "-inf"; "nan"]%string /\
  forall s n, convert_f x <> Decimal s n.
Proof.
  destruct x as [s | s | | s m e]; try discriminate; intros _.
  - split; [destruct s; cbn; auto | discriminate].
  - split; [cbn; auto | discriminate].
Qed.




(** ** The printed text fits the query buffer *)

Lemma string_length_app (s1 s2 : string) :
  String.length (s1 ++ s2) = (String.length s1 + String.length s2)%nat.
Proof. induction s1 as [| c s1 IH]; cbn; [reflexivity | now rewrite IH]. Qed.

Lemma number_of_app (s1 s2 : string) (acc : Z) :
  number_of (s1 ++ s2) acc = number_of s2 (number_of s1 acc).
Proof. revert acc; induction s1 as [| c s1 IH]; intros acc; cbn; [reflexivity | apply IH]. Qed.

Lemma digit_code (n : Z) : Z.of_N (N_of_ascii (digit n)) - 48 = n mod 10.
Proof.
  unfold digit.
  pose proof (Z.mod_pos_bound n 10 ltac:(lia)) as Hb.
  rewrite N_ascii_embedding by lia.
  lia.
Qed.

(** With enough fuel the digits printed denote the number. *)
Lemma number_of_digits_upto (fuel : nat) (n : Z) :
  0 <= n < 2 ^ Z.of_nat fuel -> number_of (digits_upto fuel n) 0 = n.
Proof.
  revert n; induction fuel as [| fuel IH]; intros n Hn.
  - cbn in *; lia.
  - cbn [digits_upto].
    destruct (Z.ltb_spec n 10) as [Small | Large].
    + cbn [number_of]; rewrite digit_code, Z.mod_small; lia.
    + rewrite number_of_app; cbn [number_of].
      rewrite Nat2Z.inj_succ, Z.pow_succ_r in Hn by lia.
      rewrite IH, digit_code.
      * pose proof (Z.div_mod n 10 ltac:(lia)); lia.
      * split; [apply Z.div_pos; lia |].
        apply Z.div_lt_upper_bound; lia.
Qed.

Lemma number_of_digits (n : Z) : 0 <= n -> number_of (digits n) 0 = n.
Proof.
  intros Hn; unfold digits; apply number_of_digits_upto.
  rewrite Nat2Z.inj_succ, Z2Nat.id by apply Z.log2_nonneg.
  destruct (Z.eq_dec n 0) as [-> | Hne]; [cbn; lia |].
  pose proof (Z.log2_spec n ltac:(lia)); lia.
Qed.

Lemma digits_upto_length (fuel : nat) (n : Z) (d : nat) :
  (1 <= d)%nat -> 0 <= n < 10 ^ Z.of_nat d ->
  (String.length (digits_upto fuel n) <= d)%nat.
Proof.
  revert n d; induction fuel as [| fuel IH]; intros n d Hd Hn; [cbn; lia |].
  cbn [digits_upto].
  destruct (Z.ltb_spec n 10) as [Small | Large]; [cbn; lia |].
  rewrite string_length_app; cbn [String.length].
  destruct d as [| d]; [lia |].
  rewrite Nat2Z.inj_succ, Z.pow_succ_r in Hn by lia.
  destruct d as [| d]; [cbn in Hn; lia |].
  specialize (IH (n / 10) (S d) ltac:(lia)).
  assert (0 <= n / 10 < 10 ^ Z.of_nat (S d)).
  { split; [apply Z.div_pos; lia | apply Z.div_lt_upper_bound; lia]. }
  specialize (IH H); lia.
Qed.

Lemma printf_d_length (n : Z) : int_range n -> (String.length (printf_d n) <= 11)%nat.
Proof.
  unfold int_range, printf_d, digits; intros Hn.
  change (2 ^ 31) with 2147483648 in Hn.
  destruct (Z.ltb_spec n 0).
  - cbn [String.append String.length].
    pose proof (digits_upto_length (S (Z.to_nat (Z.log2 (- n)))) (- n) 10 ltac:(lia)
                  ltac:(change (10 ^ Z.of_nat 10) with 10000000000; lia)).
    lia.
  - pose proof (digits_upto_length (S (Z.to_nat (Z.log2 n))) n 10 ltac:(lia)
                  ltac:(change (10 ^ Z.of_nat 10) with 10000000000; lia)).
    lia.
Qed.

Lemma digits2_pos_bound (m : positive) : Zpos m < 2 ^ Zpos (digits2_pos m).
Proof.
  induction m as [m IH | m IH |]; cbn [digits2_pos];
    rewrite ?Pos2Z.inj_succ, ?Z.pow_succ_r by lia; lia.
Qed.

(** A binary64 number has a mantissa below [2^53] and an exponent of at
    most 971. *)
Lemma valid_binary_bounds (s : bool) (m : positive) (e : Z) :
  valid_binary prec emax (S754_finite s m e) = true -> Zpos m < 2 ^ 53 /\ e <= 971.
Proof.
  unfold valid_binary, bounded, canonical_mantissa, fexp, emin, prec, emax.
  intros H; apply andb_true_iff in H as [Hc He].
  apply Z.eqb_eq in Hc; apply Z.leb_le in He.
  split; [| lia].
  pose proof (digits2_pos_bound m) as Hm.
  assert (Hd : Zpos (digits2_pos m) <= 53) by lia.
  apply Z.lt_le_trans with (1 := Hm).
  apply Z.pow_le_mono_r; lia.
Qed.

Lemma round_half_even_le (num den : Z) :
  2 <= den -> 2 <= num -> round_half_even num den <= num.
Proof.
  intros Hden Hnum; unfold round_half_even.
  assert (num / den <= num / 2) by (apply Z.div_le_compat_l; lia).
  pose proof (Z.div_mod num 2 ltac:(lia)).
  pose proof (Z.mod_pos_bound num 2 ltac:(lia)).
  destruct (2 * (num mod den) ?= den); [destruct (Z.even _) |..]; lia.
Qed.

Lemma millionths_bound (m : positive) (e : Z) :
  Zpos m < 2 ^ 53 -> e <= 971 -> millionths m e / 1000000 < 10 ^ 309.
Proof.
  intros Hm He.
  assert (Big : 2 ^ 53 * 2 ^ 971 < 10 ^ 309) by (vm_compute; reflexivity).
  assert (Small : 2 ^ 53 < 10 ^ 309) by (vm_compute; reflexivity).
  set (B := 10 ^ 309) in *.
  destruct e as [| p | p]; unfold millionths.
  - rewrite Z.pow_0_r, Z.mul_1_r, Z.div_mul; lia.
  - rewrite Z.div_mul by lia.
    assert (0 < 2 ^ Zpos p <= 2 ^ 971)
      by (split; [lia | apply Z.pow_le_mono_r; lia]).
    set (P := 2 ^ 53) in *; set (E := 2 ^ 971) in *; nia.
  - assert (2 <= 2 ^ Zpos p).
    { change 2 with (2 ^ 1) at 1; apply Z.pow_le_mono_r; lia. }
    pose proof (round_half_even_le (Zpos m * 1000000) (2 ^ Zpos p) ltac:(lia) ltac:(lia)).
    apply Z.div_lt_upper_bound; [lia |].
    set (P := 2 ^ 53) in *; nia.
Qed.

Lemma printf_f_length (x : double) :
  valid_binary prec emax x = true -> (String.length (printf_f x) <= 317)%nat.
Proof.
  destruct x as [s | s | | s m e]; intros V.
  - destruct s; cbn; lia.
  - destruct s; cbn; lia.
  - cbn; lia.
  - destruct (valid_binary_bounds _ _ _ V) as [Hm He].
    pose proof (millionths_bound m e Hm He) as Hb.
    pose proof (millionths_nonneg m e) as Hn.
    unfold printf_f, convert_f, text_f, digits.
    set (n := millionths m e) in *.
    assert (0 <= n / 1000000) by (apply Z.div_pos; lia).
    pose proof (digits_upto_length (S (Z.to_nat (Z.log2 (n / 1000000)))) (n / 1000000)
                  309 ltac:(lia)
                  ltac:(change (Z.of_nat 309) with 309; lia)) as Hlen.
    rewrite !string_length_app.
    change (String.length (six_digits (n mod 1000000))) with 6%nat.
    change (String.length ".") with 1%nat.
    destruct s; cbn [sign_text String.length]; lia.
Qed.

(** No statement of the program is longer than the 1023 characters that
    [snprintf] can put into [query]. *)
Lemma sql_fits_query (q : Statement) :
  formatted q -> (String.length (sql q) <= 377 < query_size)%nat.
Proof.
  unfold query_size.
  destruct q as [e | e | v e]; cbn [formatted sql].
  - intros He; pose proof (printf_d_length e He).
    rewrite string_length_app; cbn [String.length]; lia.
  - intros He; pose proof (printf_d_length e He).
    rewrite string_length_app; cbn [String.length]; lia.
  - intros (He & x & V & ->).
    pose proof (printf_d_length e He).
    pose proof (printf_f_length x V) as Hf; unfold printf_f in Hf.
    rewrite !string_length_app; cbn [String.length]; lia.
Qed.

(** * Further properties *)

(** ** The mode buffers *)

Lemma strncpy_length (dest : list ascii) (src : string) (n : nat) :
  List.length (strncpy dest src n) = List.length dest.
Proof.
  revert dest src; induction n as [| n IH]; intros dest src;
    [now destruct dest |].
  destruct dest as [| c dest]; [reflexivity |].
  cbn [strncpy].
  destruct src as [| a src]; [| destruct (Ascii.eqb a NUL)];
    cbn [List.length]; now rewrite IH.
Qed.

(** [strncpy] leaves the bytes from the [n]-th on as they were. *)
Lemma strncpy_beyond (dest : list ascii) (src : string) (n k : nat) (d : ascii) :
  (n <= k)%nat -> nth k (strncpy dest src n) d = nth k dest d.
Proof.
  revert dest src k; induction n as [| n IH]; intros dest src k Hk;
    [now destruct dest |].
  destruct dest as [| c dest]; [reflexivity |].
  destruct k as [| k]; [lia |].
  cbn [strncpy].
  destruct src as [| a src]; [| destruct (Ascii.eqb a NUL)];
    cbn [nth]; apply IH; lia.
Qed.

Lemma buf_str_strncpy_empty (n : nat) :
  buf_str (strncpy (zeros (S n)) EmptyString n) = EmptyString.
Proof. destruct n; reflexivity. Qed.

(** A zeroed buffer of [n + 1] bytes holds, after [strncpy] of [n] bytes,
    the first [n] characters of the source string. *)
Lemma buf_str_strncpy (n : nat) (t : string) :
  buf_str (strncpy (zeros (S n)) t n) = substring 0 n (c_str t).
Proof.
  revert t; induction n as [| n IH]; intros t.
  - cbn. now destruct (c_str t).
  - change (zeros (S (S n))) with (NUL :: zeros (S n)).
    destruct t as [| c t]; [reflexivity |].
    cbn [strncpy c_str].
    destruct (Ascii.eqb c NUL) eqn:Ec; [reflexivity |].
    rewrite (buf_str_cons _ _ Ec); cbn [substring].
    now rewrite IH.
Qed.

Lemma substring_all (n : nat) (s : string) :
  (String.length s <= n)%nat -> substring 0 n s = s.
Proof.
  revert s; induction n as [| n IH]; intros s Hs.
  - destruct s; [reflexivity | cbn in Hs; lia].
  - destruct s as [| c s]; [reflexivity |].
    cbn [substring]; rewrite IH; [reflexivity | cbn in Hs; lia].
Qed.

Lemma substring_length_le (n : nat) (s : string) :
  (String.length (substring 0 n s) <= n)%nat.
Proof.
  revert s; induction n as [| n IH]; intros s.
  - destruct s; cbn; lia.
  - destruct s as [| c s]; cbn [substring String.length]; [lia |].
    specialize (IH s); lia.
Qed.

(** X1: the buffer that the loops fill keeps its ten bytes and its final
    NUL, so [strcmp] stops inside it; the string it holds is the first nine
    characters of the column text, the whole text when that has at most
    nine characters. *)
Theorem mode_buffer_is_terminated (r : AttendeeRow) (a : ActivityRow) :
  let buf := travel_mode (attendee_of_row r) in
  let buf' := activity_type (activity_of_row a) in
  (List.length buf = 10%nat /\ nth 9 buf "x"%char = NUL /\
   buf_str buf = substring 0 9 (c_str (ar_travel_mode r)) /\
   (String.length (buf_str buf) <= 9)%nat /\
   ((String.length (c_str (ar_travel_mode r)) <= 9)%nat ->
    buf_str buf = c_str (ar_travel_mode r))) /\
  (List.length buf' = 10%nat /\ nth 9 buf' "x"%char = NUL /\
   buf_str buf' = substring 0 9 (c_str (cr_activity_type a)) /\
   (String.length (buf_str buf') <= 9)%nat /\
   ((String.length (c_str (cr_activity_type a)) <= 9)%nat ->
    buf_str buf' = c_str (cr_activity_type a))).
Proof.
  cbv zeta; unfold attendee_of_row, activity_of_row; cbn [travel_mode activity_type].
  change (10 - 1)%nat with 9%nat.
  split.
  - rewrite strncpy_length, strncpy_beyond by lia.
    rewrite (buf_str_strncpy 9).
    repeat split; try reflexivity.
    + apply substring_length_le.
    + intros H; now apply substring_all.
  - rewrite strncpy_length, strncpy_beyond by lia.
    rewrite (buf_str_strncpy 9).
    repeat split; try reflexivity.
    + apply substring_length_le.
    + intros H; now apply substring_all.
Qed.

Lemma mode_buffer_is_terminated_witness :
  buf_str (travel_mode (attendee_of_row (mkAttendeeRow 1 1 "plane" zero)))
  = "plane"%string /\
  buf_str (activity_type (activity_of_row (mkActivityRow 1 1 "virtual")))
  = "virtual"%string.
Proof.
  destruct (mode_buffer_is_terminated
              (mkAttendeeRow 1 1 "plane" zero) (mkActivityRow 1 1 "virtual"))
    as [(_ & _ & _ & _ & H1) (_ & _ & _ & _ & H2)].
  split; [apply H1 | apply H2]; cbn; lia.
Defined.

(** ** Signs and values that are not finite *)

Lemma binary_round_aux_opp (s : bool) (m e : Z) (l : location) :
  binary_round_aux prec emax (negb s) m e l
  = SFopp (binary_round_aux prec emax s m e l).
Proof.
  unfold binary_round_aux.
  destruct (shr_fexp prec emax m e l) as [mrs' e'].
  destruct (shr_fexp prec emax _ e' loc_Exact) as [mrs'' e''].
  destruct (shr_m mrs'') as [| p | p]; [reflexivity | | reflexivity].
  now destruct (e'' <=? emax - prec).
Qed.

Lemma mul_opp (x y : double) : mul (opp x) y = opp (mul x y).
Proof.
  unfold mul, opp.
  destruct x as [sx | sx | | sx mx ex], y as [sy | sy | | sy my ey];
    cbn [SFmul SFopp]; rewrite <- ?Bool.negb_xorb_l; try reflexivity.
  apply binary_round_aux_opp.
Qed.

(** X2: the distance is never checked or clamped: for [car], [plane] and
    [train] the footprint of the negated distance is the negated footprint;
    for any other mode it is 0.0 again. *)
Theorem footprint_of_negated_distance (id : Z) (mode : list ascii) (d : double) :
  calculate_attendee_footprint (mkAttendee id mode (opp d))
  = if recognised (buf_str mode)
    then opp (calculate_attendee_footprint (mkAttendee id mode d))
    else zero.
Proof.
  unfold calculate_attendee_footprint, recognised; cbn [travel_mode distance].
  rewrite !strcmp_eqb; cbn [c_str Ascii.eqb Bool.eqb NUL Ascii.zero].
  destruct (String.eqb (buf_str mode) "car"); [apply mul_opp |].
  destruct (String.eqb (buf_str mode) "plane"); [apply mul_opp |].
  destruct (String.eqb (buf_str mode) "train"); [apply mul_opp | reflexivity].
Qed.

Lemma add_not_finite_l (x y : double) :
  is_finite x = false -> is_finite (add x y) = false.
Proof.
  destruct x as [sx | sx | | sx mx ex]; try discriminate; intros _.
  - destruct y as [sy | sy | | sy my ey]; try reflexivity.
    now destruct sx, sy.
  - reflexivity.
Qed.

Lemma add_not_finite_r (x y : double) :
  is_finite y = false -> is_finite (add x y) = false.
Proof.
  destruct y as [sy | sy | | sy my ey]; try discriminate; intros _.
  - destruct x as [sx | sx | | sx mx ex]; try reflexivity.
    now destruct sx, sy.
  - now destruct x.
Qed.

Lemma running_sum_not_finite (start : double) (xs : list double) :
  is_finite start = false -> is_finite (running_sum start xs) = false.
Proof.
  revert start; induction xs as [| x xs IH]; intros start H; [exact H |].
  change (running_sum start (x :: xs)) with (running_sum (add start x) xs).
  apply IH, add_not_finite_l, H.
Qed.

Lemma running_sum_poisoned (start : double) (xs : list double) (x : double) :
  In x xs -> is_finite x = false -> is_finite (running_sum start xs) = false.
Proof.
  revert start; induction xs as [| y xs IH]; intros start Hin Hx; [contradiction |].
  change (running_sum start (y :: xs)) with (running_sum (add start y) xs).
  destruct Hin as [-> | Hin].
  - apply running_sum_not_finite, add_not_finite_r, Hx.
  - now apply IH.
Qed.

Lemma footprint_not_finite (r : AttendeeRow) :
  recognised (c_str (ar_travel_mode r)) = true ->
  is_finite (ar_distance r) = false ->
  is_finite (calculate_attendee_footprint (attendee_of_row r)) = false.
Proof.
  intros Hm Hd.
  unfold calculate_attendee_footprint, recognised in *.
  rewrite !strcmp_eqb, !attendee_of_row_mode by (cbn; lia).
  cbn [c_str Ascii.eqb Bool.eqb NUL Ascii.zero] in *.
  cbn [attendee_of_row distance].
  destruct (ar_distance r) as [s | s | | s m e]; try discriminate.
  - destruct (String.eqb _ "car"); [reflexivity |].
    destruct (String.eqb _ "plane"); [reflexivity |].
    destruct (String.eqb _ "train"); [reflexivity | discriminate].
  - destruct (String.eqb _ "car"); [reflexivity |].
    destruct (String.eqb _ "plane"); [reflexivity |].
    destruct (String.eqb _ "train"); [reflexivity | discriminate].
Qed.

(** A successful [SELECT] delivers the rows of the event from the table. *)
Lemma PQexec_select_attendees_ok (conn : PGconn) (event_id : Z) :
  PQresultStatus (snd (PQexec conn (SelectAttendees event_id))) = PGRES_TUPLES_OK ->
  exists rows,
    attendees (database conn) = Some rows /\
    snd (PQexec conn (SelectAttendees event_id))
    = attendee_result (attendees_of event_id rows).
Proof.
  unfold PQexec.
  destruct (hd false (faults conn)); [discriminate |]; cbn [execute].
  destruct (attendees (database conn)) as [rows |]; [| discriminate].
  intros _; now exists rows.
Qed.

Lemma PQexec_select_activities_ok (conn : PGconn) (event_id : Z) :
  PQresultStatus (snd (PQexec conn (SelectActivities event_id))) = PGRES_TUPLES_OK ->
  exists rows,
    activities (database conn) = Some rows /\
    snd (PQexec conn (SelectActivities event_id))
    = activity_result (activities_of event_id rows).
Proof.
  unfold PQexec.
  destruct (hd false (faults conn)); [discriminate |]; cbn [execute].
  destruct (activities (database conn)) as [rows |]; [| discriminate].
  intros _; now exists rows.
Qed.

Lemma exec_status_cases (a b : ExecStatusType) :
  (exec_status_eqb a b = true /\ a = b) \/ (exec_status_eqb a b = false /\ a <> b).
Proof. destruct a, b; cbn; (left; split; congruence) || (right; split; congruence). Qed.

(** X3: one attendee of the event with a recognised mode and a distance
    that is infinite or not a number makes the total infinite or not a
    number, whatever the other rows are and wherever the row stands; the
    run then leaves the database as it was. *)
Theorem non_finite_distance_blocks_update
  (conn : PGconn) (event_id : Z) (rows : list AttendeeRow) (r : AttendeeRow) :
  attendees (database conn) = Some rows ->
  In r rows -> ar_event_id r = event_id ->
  recognised (c_str (ar_travel_mode r)) = true ->
  is_finite (ar_distance r) = false ->
  (forall acts,
     is_finite (event_total (attendees_of event_id rows) acts) = false) /\
  database (fst (calculate_and_update_event_footprint conn event_id)) = database conn.
Proof.
  intros Ha Hin He Hm Hd.
  assert (Total : forall acts,
             is_finite (event_total (attendees_of event_id rows) acts) = false).
  { intros acts; rewrite event_total_eq.
    apply running_sum_poisoned
      with (x := calculate_attendee_footprint (attendee_of_row r)).
    - apply in_or_app; left.
      unfold attendee_contributions.
      apply (in_map (fun r => calculate_attendee_footprint (attendee_of_row r))).
      apply filter_In; split; [exact Hin | now apply Z.eqb_eq].
    - now apply footprint_not_finite. }
  split; [exact Total |].
  rewrite calculate_and_update_event_footprint_eq; cbv zeta.
  set (r1 := PQexec conn (SelectAttendees event_id)).
  set (r2 := PQexec (fst r1) (SelectActivities event_id)).
  assert (D1 : database (fst r1) = database conn)
    by apply PQexec_select_attendees_database.
  assert (D2 : database (fst r2) = database conn)
    by (unfold r2; now rewrite PQexec_select_activities_database).
  destruct (exec_status_cases (PQresultStatus (snd r1)) PGRES_TUPLES_OK)
    as [[-> S1] | [-> _]]; [| exact D1].
  destruct (exec_status_cases (PQresultStatus (snd r2)) PGRES_TUPLES_OK)
    as [[-> S2] | [-> _]]; [| exact D2].
  destruct (PQexec_select_attendees_ok conn event_id S1) as (rows' & Ha' & R1).
  destruct (PQexec_select_activities_ok (fst r1) event_id S2) as (acts & _ & R2).
  fold r1 in R1; fold r2 in R2.
  rewrite Ha in Ha'; injection Ha' as <-.
  rewrite R1, R2.
  fold (event_total (attendees_of event_id rows) (activities_of event_id acts)).
  set (q := UpdateEvent _ event_id).
  assert (D3 : database (fst (PQexec (fst r2) q)) = database conn).
  { destruct (PQexec_update_cases (fst r2)
                (convert_f (event_total (attendees_of event_id rows)
                              (activities_of event_id acts))) event_id)
      as [[_ (evs & s & n & _ & Cv & _)] | [_ Db]].
    - destruct (convert_f_not_finite _ (Total (activities_of event_id acts)))
        as [_ NoDec].
      now apply NoDec in Cv.
    - fold q in Db; now rewrite Db. }
  now destruct (exec_status_eqb _ PGRES_COMMAND_OK).
Qed.

Lemma non_finite_distance_blocks_update_witness :
  let d := mkDatabase
             (Some [car 1 100; mkAttendeeRow 2 1 "plane" S754_nan; car 3 7])
             (Some [virtual 1]) (Some [mkEventRow 1 (5 # 1) []]) in
  database (fst (calculate_and_update_event_footprint (connect d []) 1)) = d.
Proof.
  cbv zeta.
  apply (non_finite_distance_blocks_update
           (connect _ []) 1
           [car 1 100; mkAttendeeRow 2 1 "plane" S754_nan; car 3 7]
           (mkAttendeeRow 2 1 "plane" S754_nan)); try reflexivity.
  right; left; reflexivity.
Defined.

(** ** What a run reports *)

(** The statements of a run: the attendee read, then the activity read,
    then the write, cut short after the first one that fails. *)
Lemma sent_shape (conn : PGconn) (event_id : Z) :
  exists new,
    sent (fst (calculate_and_update_event_footprint conn event_id)) = sent conn ++ new /\
    (new = [SelectAttendees event_id] \/
     new = [SelectAttendees event_id; SelectActivities event_id] \/
     exists v,
       new = [SelectAttendees event_id; SelectActivities event_id;
              UpdateEvent v event_id]).
Proof.
  rewrite calculate_and_update_event_footprint_eq; cbv zeta.
  set (r1 := PQexec conn (SelectAttendees event_id)).
  set (r2 := PQexec (fst r1) (SelectActivities event_id)).
  set (q3 := UpdateEvent _ event_id).
  assert (S1 : sent (fst r1) = sent conn ++ [SelectAttendees event_id])
    by apply PQexec_sent.
  assert (S2 : sent (fst r2)
               = sent conn ++ [SelectAttendees event_id; SelectActivities event_id])
    by (unfold r2; now rewrite PQexec_sent, S1, <- app_assoc).
  assert (S3 : sent (fst (PQexec (fst r2) q3))
               = sent conn ++ [SelectAttendees event_id; SelectActivities event_id; q3])
    by (now rewrite PQexec_sent, S2, <- app_assoc).
  destruct (exec_status_eqb (PQresultStatus (snd r1)) PGRES_TUPLES_OK);
    [| exists [SelectAttendees event_id]; split; [exact S1 | now left]].
  destruct (exec_status_eqb (PQresultStatus (snd r2)) PGRES_TUPLES_OK);
    [| exists [SelectAttendees event_id; SelectActivities event_id];
       split; [exact S2 | right; now left]].
  exists [SelectAttendees event_id; SelectActivities event_id; q3].
  split; [now destruct (exec_status_eqb _ PGRES_COMMAND_OK) |].
  right; right; now exists (convert_f (computed_total (snd r1) (snd r2))).
Qed.



(** ** The process *)

(** X5: [main] closes the connection on every path.  When the connection
    could not be established it sends no statement, leaves the data alone
    and prints one line; otherwise every statement it sends is about event
    1, in the order attendee read, activity read, write. *)
Theorem main_closes_connection (PQconnectdb : string -> PGconn) :
  let conn := PQconnectdb conninfo in
  let r := main PQconnectdb in
  finished (final_conn r) = true /\
  (PQstatus conn <> CONNECTION_OK ->
   sent (final_conn r) = sent conn /\
   database (final_conn r) = database conn /\
   stderr_lines r
   = [("Connection to database failed: " ++ PQerrorMessage conn)%string]) /\
  (PQstatus conn = CONNECTION_OK ->
   exists new,
     sent (final_conn r) = sent conn ++ new /\
     (new = [SelectAttendees 1] \/
      new = [SelectAttendees 1; SelectActivities 1] \/
      exists v, new = [SelectAttendees 1; SelectActivities 1; UpdateEvent v 1])).
Proof.
  cbv zeta; unfold main, final_conn, stderr_lines.
  destruct (PQstatus (PQconnectdb conninfo)) eqn:E; cbn [conn_status_eqb negb].
  - pose proof (sent_shape (PQconnectdb conninfo) 1) as Shape.
    destruct (calculate_and_update_event_footprint _ 1) as [c err]; cbn [fst snd] in *.
    split; [reflexivity | split; [congruence |]].
    intros _; exact Shape.
  - cbn [fst snd].
    split; [reflexivity | split; [| discriminate]].
    intros _; repeat split.
Qed.

Lemma main_closes_connection_witness :
  sent (final_conn (main (fun _ =>
          mkPGconn CONNECTION_BAD scenario_A [] [] "could not connect" false)))
  = [] /\
  exists new,
    sent (final_conn (main (fun _ => connect scenario_A []))) = [] ++ new /\
    (new = [SelectAttendees 1] \/
     new = [SelectAttendees 1; SelectActivities 1] \/
     exists v, new = [SelectAttendees 1; SelectActivities 1; UpdateEvent v 1]).
Proof.
  split.
  - apply (proj1 (proj2 (main_closes_connection
             (fun _ => mkPGconn CONNECTION_BAD scenario_A [] [] "could not connect" false)))).
    discriminate.
  - apply (proj2 (proj2 (main_closes_connection (fun _ => connect scenario_A [])))).
    reflexivity.
Defined.

(** ** The query buffer *)

(** X6: for every 32-bit event identifier and every binary64 total, the
    text of each of the three statements has at most 377 characters, so
    [snprintf] never cuts a statement short in the 1024-byte buffer. *)
Theorem query_is_never_truncated (q : Statement) :
  formatted q -> (String.length (sql q) <= 377)%nat /\ (377 < query_size)%nat.
Proof. intros F; pose proof (sql_fits_query q F); lia. Qed.

Lemma query_is_never_truncated_witness :
  (String.length
     (sql (UpdateEvent (convert_f (opp DBL_MAX)) (- 2147483648))) <= 377)%nat /\
  (377 < query_size)%nat.
Proof.
  apply (query_is_never_truncated (UpdateEvent (convert_f (opp DBL_MAX)) (- 2147483648))).
  split; [unfold int_range; lia |].
  exists (opp DBL_MAX); split; reflexivity.
Defined.

(** ** The rows that count *)

(** X7: the footprint stored for an event depends on the rows of that
    event only: two databases with the same event rows whose attendee and
    activity tables agree on the rows of [event_id] end up with the same
    event rows, whatever rows of other events the tables hold. *)
Theorem rows_of_other_events_do_not_count
  (conn conn' : PGconn) (event_id : Z)
  (rows rows' : list AttendeeRow) (acts acts' : list ActivityRow) :
  fault_free (faults conn) -> fault_free (faults conn') ->
  attendees (database conn) = Some rows ->
  attendees (database conn') = Some rows' ->
  activities (database conn) = Some acts ->
  activities (database conn') = Some acts' ->
  attendees_of event_id rows = attendees_of event_id rows' ->
  activities_of event_id acts = activities_of event_id acts' ->
  events (database conn) = events (database conn') ->
  events (database (fst (calculate_and_update_event_footprint conn event_id)))
  = events (database (fst (calculate_and_update_event_footprint conn' event_id))).
Proof.
  intros F F' Ha Ha' Hb Hb' Er Ea Ev.
  rewrite (proj1 (run_without_faults conn event_id F)).
  rewrite (proj1 (run_without_faults conn' event_id F')).
  unfold stored_after.
  rewrite Ha, Ha', Hb, Hb', <- Ev.
  fold (attendees_of event_id rows) (attendees_of event_id rows')
       (activities_of event_id acts) (activities_of event_id acts').
  rewrite <- Er, <- Ea.
  destruct (events (database conn)) as [evs |] eqn:E; [| congruence].
  destruct (convert_f _); cbn [events]; congruence.
Qed.

Lemma rows_of_other_events_do_not_count_witness :
  events (database (fst (calculate_and_update_event_footprint
                           (connect scenario_A []) 1)))
  = events (database (fst (calculate_and_update_event_footprint
                             (connect (mkDatabase
                                         (Some [car 11 100;
                                                mkAttendeeRow 13 1 "plane" (of_int 50);
                                                mkAttendeeRow 14 3 "car" DBL_MAX])
                                         (Some [virtual 21; workshop 22])
                                         (events scenario_A)) []) 1))).
Proof.
  eapply (rows_of_other_events_do_not_count (connect scenario_A []) (connect _ []) 1);
    try reflexivity; constructor.
Defined.

Lemma set_carbon_footprint_absent (v : Q) (event_id : Z) (evs : list EventRow) :
  Forall (fun r => ev_id r <> event_id) evs ->
  map (set_carbon_footprint v event_id) evs = evs.
Proof.
  induction 1 as [| r evs Hr _ IH]; [reflexivity |].
  cbn [map]; rewrite IH; f_equal.
  unfold set_carbon_footprint.
  now rewrite (proj2 (Z.eqb_neq _ _) Hr).
Qed.

(** X8: the function never checks how many rows the [UPDATE] touched.  When
    the three tables exist, no fault occurs and the total is finite, but no
    event row has the identifier [event_id], the run changes nothing and
    reports nothing. *)
Theorem absent_event_goes_unnoticed
  (conn : PGconn) (event_id : Z)
  (rows : list AttendeeRow) (acts : list ActivityRow) (evs : list EventRow) :
  fault_free (faults conn) ->
  attendees (database conn) = Some rows ->
  activities (database conn) = Some acts ->
  events (database conn) = Some evs ->
  Forall (fun r => ev_id r <> event_id) evs ->
  is_finite (event_total (attendees_of event_id rows)
               (activities_of event_id acts)) = true ->
  snd (calculate_and_update_event_footprint conn event_id) = [] /\
  database (fst (calculate_and_update_event_footprint conn event_id)) = database conn.
Proof.
  intros F Ha Hb Ev Absent Fin.
  destruct (convert_f_finite _ Fin) as (n & _ & Cv & _).
  pose proof (fun v => set_carbon_footprint_absent v event_id evs Absent) as Same.
  pose proof (fault_free_hd _ F) as H1.
  pose proof (fault_free_tl _ F) as F1.
  pose proof (fault_free_hd _ F1) as H2.
  pose proof (fault_free_tl _ F1) as F2.
  pose proof (fault_free_hd _ F2) as H3.
  unfold calculate_and_update_event_footprint.
  rewrite (PQexec_no_fault conn _ H1); cbn [execute]; rewrite Ha; cbn.
  rewrite PQexec_no_fault by exact H2; cbn [execute database]; rewrite Hb; cbn.
  rewrite PQexec_no_fault by exact H3; cbn [execute database]; rewrite Ev.
  fold (attendees_of event_id rows) (activities_of event_id acts).
  match goal with
  | |- context [convert_f ?t] =>
      change t with (event_total (attendees_of event_id rows)
                       (activities_of event_id acts))
  end.
  rewrite Cv; cbn.
  split; [reflexivity |].
  rewrite Same, <- Ev.
  now destruct (database conn).
Qed.

Lemma absent_event_goes_unnoticed_witness :
  snd (calculate_and_update_event_footprint (connect scenario_A []) 3) = [] /\
  database (fst (calculate_and_update_event_footprint (connect scenario_A []) 3))
  = scenario_A.
Proof.
  eapply (absent_event_goes_unnoticed (connect scenario_A []) 3); try reflexivity.
  - constructor.
  - repeat constructor; discriminate.
Defined.

(** ** Sums of whole numbers *)

Section Iter.
Context {A : Type} (f : A -> A).

Lemma iter_pos_comm (p : positive) (x : A) : SpecFloat.iter_pos f p (f x) = f (SpecFloat.iter_pos f p x).
Proof.
  revert x; induction p as [p IH | p IH |]; intros x; cbn [SpecFloat.iter_pos].
  - now rewrite !IH.
  - now rewrite !IH.
  - reflexivity.
Qed.

Lemma iter_pos_succ (p : positive) (x : A) :
  SpecFloat.iter_pos f (Pos.succ p) x = SpecFloat.iter_pos f p (f x).
Proof.
  revert x; induction p as [p IH | p IH |]; intros x; cbn [SpecFloat.iter_pos Pos.succ].
  - rewrite !IH. now rewrite !iter_pos_comm.
  - reflexivity.
  - reflexivity.
Qed.
End Iter.

Lemma binary_round_xO (s : bool) (m : positive) (e : Z) :
  binary_round prec emax s m~0 e = binary_round prec emax s m (e + 1).
Proof.
  unfold binary_round.
  cbn [digits2_pos].
  rewrite Pos2Z.inj_succ.
  replace (Z.succ (Z.pos (digits2_pos m)) + e) with (Z.pos (digits2_pos m) + (e + 1)) by lia.
  set (E := fexp prec emax (Z.pos (digits2_pos m) + (e + 1))).
  unfold shl_align.
  destruct (E - e) as [| p | p] eqn:D.
  - (* E = e *)
    replace (E - (e + 1)) with (Z.neg 1) by lia.
    cbn [Pos.iter]. replace E with e by lia. reflexivity.
  - (* E > e *)
    destruct (E - (e + 1)) as [| q | q] eqn:D'; try lia.
    + (* E = e + 1 *)
      assert (p = 1%positive) by lia; subst p.
      unfold binary_round_aux, shr_fexp.
      cbn [Zdigits2 digits2_pos]. rewrite Pos2Z.inj_succ.
      replace (Z.succ (Z.pos (digits2_pos m)) + e) with (Z.pos (digits2_pos m) + (e + 1)) by lia.
      fold E. rewrite D, D'.
      cbn. reflexivity.
    + assert (p = Pos.succ q) by lia; subst p.
      unfold binary_round_aux, shr_fexp.
      cbn [Zdigits2 digits2_pos]. rewrite Pos2Z.inj_succ.
      replace (Z.succ (Z.pos (digits2_pos m)) + e) with (Z.pos (digits2_pos m) + (e + 1)) by lia.
      fold E. rewrite D, D'.
      unfold shr. rewrite iter_pos_succ. cbn [shr_record_of_loc shr_1 orb].
      replace (e + Z.pos (Pos.succ q)) with (e + 1 + Z.pos q) by lia.
      reflexivity.
  - (* E < e *)
    destruct (E - (e + 1)) as [| q | q] eqn:D'; try lia.
    assert (q = Pos.succ p) by lia; subst q.
    rewrite Pos.iter_succ_r. reflexivity.
Qed.

Lemma iter_xO_spec (m k : positive) : Z.pos (Pos.iter xO m k) = Z.pos m * 2 ^ Z.pos k.
Proof.
  induction k as [| k IH] using Pos.peano_ind.
  - cbn [Pos.iter]. lia.
  - rewrite Pos.iter_succ, Pos2Z.inj_xO, IH, Pos2Z.inj_succ, Z.pow_succ_r by lia. lia.
Qed.

Lemma iter_xO_digits (m k : positive) :
  Z.pos (digits2_pos (Pos.iter xO m k)) = Z.pos (digits2_pos m) + Z.pos k.
Proof.
  induction k as [| k IH] using Pos.peano_ind.
  - cbn [Pos.iter digits2_pos]. lia.
  - rewrite Pos.iter_succ; cbn [digits2_pos]. rewrite Pos2Z.inj_succ, IH. lia.
Qed.

Lemma binary_round_iter_xO (s : bool) (m k : positive) (e : Z) :
  binary_round prec emax s (Pos.iter xO m k) e = binary_round prec emax s m (e + Z.pos k).
Proof.
  revert e; induction k as [| k IH] using Pos.peano_ind; intros e.
  - cbn [Pos.iter]. apply binary_round_xO.
  - rewrite Pos.iter_succ, binary_round_xO, IH. f_equal. lia.
Qed.

(** [binary_round] only depends on the number [m * 2^e]. *)
Lemma binary_round_scaled (s : bool) (m n : positive) (e k : Z) :
  0 <= k -> Z.pos n = Z.pos m * 2 ^ k ->
  binary_round prec emax s n (e - k) = binary_round prec emax s m e.
Proof.
  intros Hk Hn.
  destruct k as [| p | p]; [| | lia].
  - rewrite Z.pow_0_r, Z.mul_1_r in Hn. injection Hn as ->. f_equal; lia.
  - rewrite <- iter_xO_spec in Hn. injection Hn as ->.
    rewrite binary_round_iter_xO. f_equal; lia.
Qed.

Lemma digits2_pos_lower (m : positive) : 2 ^ (Z.pos (digits2_pos m) - 1) <= Z.pos m.
Proof.
  induction m as [m IH | m IH |]; cbn [digits2_pos].
  - rewrite Pos2Z.inj_succ. replace (Z.succ (Z.pos (digits2_pos m)) - 1)
      with (Z.succ (Z.pos (digits2_pos m) - 1)) by lia.
    rewrite Z.pow_succ_r by lia. lia.
  - rewrite Pos2Z.inj_succ. replace (Z.succ (Z.pos (digits2_pos m)) - 1)
      with (Z.succ (Z.pos (digits2_pos m) - 1)) by lia.
    rewrite Z.pow_succ_r by lia. lia.
  - cbn. lia.
Qed.

Lemma binary_round_aux_canonical (s : bool) (m : positive) (e : Z) :
  Z.pos (digits2_pos m) = 53 -> - 1074 <= e <= 971 ->
  binary_round_aux prec emax s (Z.pos m) e loc_Exact = S754_finite s m e.
Proof.
  intros Hd He.
  assert (F : fexp prec emax (53 + e) - e = 0)
    by (unfold fexp, emin, prec, emax; lia).
  unfold binary_round_aux, shr_fexp.
  cbn [Zdigits2]. rewrite Hd, F. cbn [shr shr_record_of_loc].
  cbn [shr_m loc_of_shr_record round_nearest_even Zdigits2].
  rewrite Hd, F. cbn [shr shr_record_of_loc shr_m].
  replace (e <=? emax - prec) with true; [reflexivity |].
  symmetry; apply Z.leb_le; unfold emax, prec; lia.
Qed.

(** A positive integer below [2^53] converts to the binary64 number with
    the same value. *)
Lemma of_int_exact (a : positive) :
  Z.pos a < 2 ^ 53 ->
  exists (m : positive) (k : Z),
    0 <= k <= 52 /\ Z.pos m = Z.pos a * 2 ^ k /\ of_int (Z.pos a) = S754_finite false m (- k).
Proof.
  intros Ha.
  pose proof (digits2_pos_lower a) as Hl.
  set (d := Z.pos (digits2_pos a)) in *.
  assert (Hd : 1 <= d <= 53).
  { split; [unfold d; lia |].
    destruct (Z_le_gt_dec d 53) as [L | G]; [exact L |].
    assert (2 ^ 53 <= 2 ^ (d - 1)) by (apply Z.pow_le_mono_r; lia). lia. }
  unfold of_int, binary_normalize, binary_round.
  rewrite Z.add_0_r. fold d.
  assert (F : fexp prec emax d = d - 53) by (unfold fexp, emin, prec, emax; lia).
  rewrite F. unfold shl_align.
  destruct (d - 53 - 0) as [| p | p] eqn:D; [| lia |].
  - exists a, 0. rewrite Z.pow_0_r, Z.mul_1_r. repeat split; try lia.
    apply (binary_round_aux_canonical false a 0); [fold d |]; lia.
  - exists (Pos.iter xO a p), (Z.pos p).
    split; [lia | split; [apply iter_xO_spec |]].
    replace (d - 53) with (- Z.pos p) by lia.
    apply binary_round_aux_canonical; [| lia].
    rewrite iter_xO_digits. fold d. lia.
Qed.

Lemma of_int_value (a : Z) : 0 <= a < 2 ^ 53 -> (to_Q (of_int a) == inject_Z a)%Q.
Proof.
  intros [H0 H1].
  destruct a as [| a | a]; [reflexivity | | lia].
  destruct (of_int_exact a H1) as (m & k & Hk & Hm & ->).
  unfold to_Q, pow2.
  destruct k as [| p | p]; [| | lia]; cbn [Z.opp].
  - rewrite Z.pow_0_r, Z.mul_1_r in Hm. rewrite Hm. unfold Qeq; cbn; lia.
  - unfold Qeq, Qmult, inject_Z; cbn [Qnum Qden].
    rewrite Hm, Pos2Z.inj_mul, Pos2Z.inj_pow. lia.
Qed.

Lemma add_of_int (a b : Z) :
  0 <= a < 2 ^ 53 -> 0 <= b < 2 ^ 53 -> add (of_int a) (of_int b) = of_int (a + b).
Proof.
  intros [Ha0 Ha] [Hb0 Hb].
  destruct a as [| a | a]; [| | lia].
  { destruct b as [| b | b]; [reflexivity | | lia].
    destruct (of_int_exact b Hb) as (m & k & _ & _ & E).
    cbn [Z.add]; rewrite E; reflexivity. }
  destruct b as [| b | b]; [| | lia].
  { destruct (of_int_exact a Ha) as (m & k & _ & _ & E).
    rewrite Z.add_0_r, E; reflexivity. }
  destruct (of_int_exact a Ha) as (ma & ka & Hka & Hma & Ea).
  destruct (of_int_exact b Hb) as (mb & kb & Hkb & Hmb & Eb).
  rewrite Ea, Eb.
  unfold add; cbn [SFadd cond_Zopp].
  set (ez := Z.min (- ka) (- kb)).
  assert (A1 : Z.pos (fst (shl_align ma (- ka) ez)) = Z.pos a * 2 ^ (- ez)).
  { unfold shl_align. destruct (ez - - ka) as [| p | p] eqn:D; cbn [fst].
    - replace (- ez) with ka by lia. exact Hma.
    - lia.
    - rewrite iter_xO_spec, Hma, <- Z.mul_assoc, <- Z.pow_add_r by lia.
      do 2 f_equal; lia. }
  assert (A2 : Z.pos (fst (shl_align mb (- kb) ez)) = Z.pos b * 2 ^ (- ez)).
  { unfold shl_align. destruct (ez - - kb) as [| p | p] eqn:D; cbn [fst].
    - replace (- ez) with kb by lia. exact Hmb.
    - lia.
    - rewrite iter_xO_spec, Hmb, <- Z.mul_assoc, <- Z.pow_add_r by lia.
      do 2 f_equal; lia. }
  set (m1 := fst (shl_align ma (- ka) ez)) in *.
  set (m2 := fst (shl_align mb (- kb) ez)) in *.
  change (Z.pos m1 + Z.pos m2) with (Z.pos (m1 + m2)).
  change (Z.pos a + Z.pos b) with (Z.pos (a + b)).
  unfold of_int; cbn [binary_normalize].
  replace ez with (0 - (- ez)) at 1 by lia.
  apply binary_round_scaled; [lia |].
  rewrite !Pos2Z.inj_add, A1, A2. lia.
Qed.

Lemma activity_contribution_value (r : ActivityRow) :
  calculate_activity_footprint (activity_of_row r)
  = of_int (if String.eqb (c_str (cr_activity_type r)) "virtual" then 10 else 50).
Proof.
  unfold calculate_activity_footprint.
  rewrite strcmp_eqb, activity_of_row_type by (cbn; lia).
  reflexivity.
Qed.

Lemma counts_cons (r : ActivityRow) (acts : list ActivityRow) :
  10 * count_virtual (r :: acts) + 50 * count_other (r :: acts)
  = (if String.eqb (c_str (cr_activity_type r)) "virtual" then 10 else 50)
    + (10 * count_virtual acts + 50 * count_other acts).
Proof.
  unfold count_virtual, count_other; cbn [filter].
  destruct (String.eqb _ _); cbn [negb List.length]; lia.
Qed.

Lemma counts_nonneg (acts : list ActivityRow) :
  0 <= count_virtual acts /\ 0 <= count_other acts.
Proof. unfold count_virtual, count_other; lia. Qed.

Lemma running_sum_activities (acts : list ActivityRow) (t : Z) :
  0 <= t ->
  t + (10 * count_virtual acts + 50 * count_other acts) < 2 ^ 53 ->
  running_sum (of_int t) (activity_contributions acts)
  = of_int (t + (10 * count_virtual acts + 50 * count_other acts)).
Proof.
  revert t; induction acts as [| r acts IH]; intros t Ht Hb.
  - cbn. f_equal; lia.
  - rewrite counts_cons in *.
    pose proof (counts_nonneg acts) as [Hv Ho].
    unfold activity_contributions; cbn [map].
    change (running_sum (of_int t) (?x :: ?l)) with (running_sum (add (of_int t) x) l).
    rewrite activity_contribution_value.
    set (c := if String.eqb _ _ then 10 else 50) in *.
    assert (Hc : 10 <= c <= 50) by (unfold c; destruct (String.eqb _ _); lia).
    rewrite add_of_int by lia.
    fold (activity_contributions acts).
    rewrite IH by lia.
    f_equal; lia.
Qed.

Lemma filter_length_perm {A : Type} (f : A -> bool) (l l' : list A) :
  Permutation l l' -> List.length (filter f l) = List.length (filter f l').
Proof.
  induction 1 as [| x l l' _ IH | x y l | l l' l'' _ IH1 _ IH2]; cbn [filter].
  - reflexivity.
  - destruct (f x); cbn [List.length]; now rewrite IH.
  - destruct (f x), (f y); reflexivity.
  - now rewrite IH1.
Qed.

Lemma unrecognised_contributes_zero (r : AttendeeRow) :
  recognised (c_str (ar_travel_mode r)) = false ->
  calculate_attendee_footprint (attendee_of_row r) = zero.
Proof.
  unfold recognised, calculate_attendee_footprint; intros H.
  rewrite !strcmp_eqb, !attendee_of_row_mode by (cbn; lia).
  cbn [c_str Ascii.eqb Bool.eqb NUL Ascii.zero] in *.
  destruct (String.eqb _ "car"); [discriminate |].
  destruct (String.eqb _ "plane"); [discriminate |].
  destruct (String.eqb _ "train"); [discriminate | reflexivity].
Qed.

Lemma running_sum_unrecognised (rows : list AttendeeRow) :
  Forall (fun r => recognised (c_str (ar_travel_mode r)) = false) rows ->
  running_sum zero (attendee_contributions rows) = zero.
Proof.
  induction 1 as [| r rows Hr _ IH]; [reflexivity |].
  unfold attendee_contributions; cbn [map].
  rewrite (unrecognised_contributes_zero r Hr).
  exact IH.
Qed.

(** X9: when no attendee of the event has a recognised travel mode (in
    particular when it has no attendees), and 10 per virtual activity plus
    50 per other activity stays below [2^53], no addition rounds: the total
    is exactly that whole number, and it is the same for every order of the
    rows. *)
Theorem whole_number_total_is_exact
  (rows rows' : list AttendeeRow) (acts acts' : list ActivityRow) :
  Forall (fun r => recognised (c_str (ar_travel_mode r)) = false) rows ->
  10 * count_virtual acts + 50 * count_other acts < 2 ^ 53 ->
  event_total rows acts = of_int (10 * count_virtual acts + 50 * count_other acts) /\
  (to_Q (event_total rows acts)
   == inject_Z (10 * count_virtual acts + 50 * count_other acts))%Q /\
  (Permutation rows rows' -> Permutation acts acts' ->
   event_total rows' acts' = event_total rows acts).
Proof.
  intros Hr Hb.
  pose proof (counts_nonneg acts) as [Hv Ho].
  assert (Total : forall rs cs,
             Forall (fun r => recognised (c_str (ar_travel_mode r)) = false) rs ->
             10 * count_virtual cs + 50 * count_other cs < 2 ^ 53 ->
             event_total rs cs = of_int (10 * count_virtual cs + 50 * count_other cs)).
  { intros rs cs Hrs Hcs.
    rewrite event_total_eq; unfold running_sum; rewrite fold_left_app.
    fold (running_sum zero (attendee_contributions rs)).
    rewrite (running_sum_unrecognised rs Hrs).
    change zero with (of_int 0).
    fold (running_sum (of_int 0) (activity_contributions cs)).
    rewrite running_sum_activities by lia.
    reflexivity. }
  split; [now apply Total | split].
  - rewrite (Total rows acts Hr Hb). apply of_int_value; lia.
  - intros Pr Pa.
    assert (Cv : count_virtual acts' = count_virtual acts)
      by (unfold count_virtual; now rewrite (filter_length_perm _ _ _ Pa)).
    assert (Co : count_other acts' = count_other acts)
      by (unfold count_other; now rewrite (filter_length_perm _ _ _ Pa)).
    rewrite (Total rows acts Hr Hb), Total, Cv, Co; trivial.
    + eapply Permutation_Forall; eassumption.
    + now rewrite Cv, Co.
Qed.

Lemma whole_number_total_is_exact_witness :
  event_total [mkAttendeeRow 1 1 "bike" DBL_MAX] [virtual 1; workshop 2; workshop 3]
  = of_int 110 /\
  event_total [mkAttendeeRow 1 1 "bike" DBL_MAX] [workshop 3; virtual 1; workshop 2]
  = event_total [mkAttendeeRow 1 1 "bike" DBL_MAX] [virtual 1; workshop 2; workshop 3].
Proof.
  destruct (whole_number_total_is_exact
              [mkAttendeeRow 1 1 "bike" DBL_MAX] [mkAttendeeRow 1 1 "bike" DBL_MAX]
              [virtual 1; workshop 2; workshop 3] [workshop 3; virtual 1; workshop 2])
    as (Hval & _ & Hperm).
  - repeat constructor.
  - vm_compute; reflexivity.
  - split; [exact Hval |].
    apply Hperm; [apply Permutation_refl |].
    apply (Permutation_cons_app [workshop 3] [workshop 2]); apply perm_swap.
Defined.

(** ** Products that stay finite *)

Lemma shr_1_bounds (mrs : shr_record) :
  0 <= shr_m mrs -> 0 <= shr_m (shr_1 mrs) /\ 2 * shr_m (shr_1 mrs) <= shr_m mrs.
Proof.
  destruct mrs as [m r s]; cbn [shr_m]; intros Hm.
  destruct m as [| [p | p |] | p]; cbn [shr_1 shr_m]; lia.
Qed.

Lemma iter_shr_1_bounds (p : positive) (mrs : shr_record) :
  0 <= shr_m mrs ->
  0 <= shr_m (SpecFloat.iter_pos shr_1 p mrs) /\
  2 ^ Z.pos p * shr_m (SpecFloat.iter_pos shr_1 p mrs) <= shr_m mrs.
Proof.
  revert mrs; induction p as [| p IH] using Pos.peano_ind; intros mrs Hm.
  - cbn [SpecFloat.iter_pos]. pose proof (shr_1_bounds mrs Hm). lia.
  - rewrite iter_pos_succ.
    destruct (shr_1_bounds mrs Hm) as [H0 H1].
    destruct (IH (shr_1 mrs) H0) as [H2 H3].
    split; [exact H2 |].
    rewrite Pos2Z.inj_succ, Z.pow_succ_r by lia.
    set (P := 2 ^ Z.pos p) in *.
    assert (0 < P) by (unfold P; lia).
    set (a := shr_m (SpecFloat.iter_pos shr_1 p (shr_1 mrs))) in *.
    set (b := shr_m (shr_1 mrs)) in *.
    assert (2 * (P * a) <= 2 * b) by lia.
    lia.
Qed.

Lemma Zdigits2_le (m k : Z) : 0 <= m < 2 ^ k -> 0 <= k -> Zdigits2 m <= k.
Proof.
  intros [H0 H1] Hk.
  destruct m as [| p | p]; [cbn; lia | | lia].
  cbn [Zdigits2].
  pose proof (digits2_pos_lower p) as Hl.
  destruct (Z_le_gt_dec (Z.pos (digits2_pos p)) k) as [L | G]; [exact L |].
  assert (2 ^ k <= 2 ^ (Z.pos (digits2_pos p) - 1)) by (apply Z.pow_le_mono_r; lia).
  lia.
Qed.

Lemma Zdigits2_bound (m : Z) : 0 <= m -> m < 2 ^ Zdigits2 m /\ 0 <= Zdigits2 m.
Proof.
  intros Hm. destruct m as [| p | p]; [cbn; lia | | lia].
  cbn [Zdigits2]. split; [apply digits2_pos_bound | lia].
Qed.

Lemma shr_record_of_loc_m (m : Z) (l : location) : shr_m (shr_record_of_loc m l) = m.
Proof. destruct l as [| []]; reflexivity. Qed.

(** Shifting to the exponent of the format neither makes the mantissa
    negative nor lets the number grow. *)
Lemma shr_fexp_bounds (m e : Z) (l : location) :
  0 <= m ->
  let r := shr_fexp prec emax m e l in
  0 <= shr_m (fst r) /\
  snd r = Z.max e (fexp prec emax (Zdigits2 m + e)) /\
  Zdigits2 (shr_m (fst r)) + snd r <= Z.max (Zdigits2 m + e) (snd r).
Proof.
  intros Hm; cbv zeta; unfold shr_fexp, shr.
  set (E := fexp prec emax (Zdigits2 m + e)).
  destruct (Zdigits2_bound m Hm) as [Hd Hd0].
  destruct (E - e) as [| p | p] eqn:D; cbn [fst snd].
  - rewrite shr_record_of_loc_m. lia.
  - pose proof (iter_shr_1_bounds p (shr_record_of_loc m l)) as H.
    rewrite shr_record_of_loc_m in H. destruct (H Hm) as [H0 H1].
    set (m' := shr_m _) in *.
    split; [exact H0 | split; [lia |]].
    destruct (Z_le_gt_dec (Z.pos p) (Zdigits2 m)) as [L | G].
    + assert (Zdigits2 m' <= Zdigits2 m - Z.pos p); [| lia].
      apply Zdigits2_le; [| lia]. split; [exact H0 |].
      assert (Hs : 2 ^ Zdigits2 m = 2 ^ Z.pos p * 2 ^ (Zdigits2 m - Z.pos p))
        by (rewrite <- Z.pow_add_r by lia; f_equal; lia).
      rewrite Hs in Hd.
      assert (Hp : 0 < 2 ^ Z.pos p) by lia.
      set (P := 2 ^ Z.pos p) in *; set (R := 2 ^ (Zdigits2 m - Z.pos p)) in *.
      apply Z.mul_lt_mono_pos_l with (p := P); lia.
    + assert (Hz : m' = 0).
      { assert (Hle : 2 ^ Zdigits2 m <= 2 ^ Z.pos p) by (apply Z.pow_le_mono_r; lia).
        assert (Hp : 0 < 2 ^ Z.pos p) by lia.
        set (P := 2 ^ Z.pos p) in *.
        destruct (Z.eq_dec m' 0) as [Z0' | NZ]; [exact Z0' |].
        assert (P * 1 <= P * m') by (apply Z.mul_le_mono_nonneg_l; lia).
        lia. }
      rewrite Hz; cbn [Zdigits2]. lia.
  - rewrite shr_record_of_loc_m. lia.
Qed.

Lemma round_nearest_even_bounds (m : Z) (l : location) :
  0 <= m -> m <= round_nearest_even m l <= m + 1.
Proof.
  intros Hm; destruct l as [| []]; cbn [round_nearest_even];
    try destruct (Z.even m); lia.
Qed.

(** Rounding a number below [2^1022] gives zero or a finite number. *)
Lemma binary_round_aux_finite (s : bool) (m e : Z) (l : location) :
  0 <= m -> Zdigits2 m + e <= 1022 -> e <= 971 ->
  is_finite (binary_round_aux prec emax s m e l) = true.
Proof.
  intros Hm Hb He.
  unfold binary_round_aux.
  pose proof (shr_fexp_bounds m e l Hm) as H1; cbv zeta in H1.
  destruct (shr_fexp prec emax m e l) as [mrs' e']; cbn [fst snd] in H1.
  destruct H1 as (M1 & E1 & D1).
  set (m1 := round_nearest_even (shr_m mrs') (loc_of_shr_record mrs')).
  pose proof (round_nearest_even_bounds (shr_m mrs') (loc_of_shr_record mrs') M1) as R.
  fold m1 in R.
  assert (Hm1 : 0 <= m1) by lia.
  pose proof (shr_fexp_bounds m1 e' loc_Exact Hm1) as H2; cbv zeta in H2.
  destruct (shr_fexp prec emax m1 e' loc_Exact) as [mrs'' e'']; cbn [fst snd] in H2.
  destruct H2 as (M2 & E2 & _).
  assert (Dm1 : Zdigits2 m1 <= Zdigits2 (shr_m mrs') + 1).
  { destruct (Zdigits2_bound _ M1) as [B0 B1].
    apply Zdigits2_le; [| lia].
    rewrite Z.pow_add_r, Z.pow_1_r by lia. lia. }
  assert (Ee : e'' <= 971).
  { unfold fexp, emin, prec, emax in *. lia. }
  destruct (shr_m mrs'') as [| p | p]; [reflexivity | | lia].
  replace (e'' <=? emax - prec) with true; [reflexivity |].
  symmetry; apply Z.leb_le; unfold emax, prec; lia.
Qed.

Lemma digits2_pos_mul (a b : positive) :
  Z.pos (digits2_pos (a * b)) <= Z.pos (digits2_pos a) + Z.pos (digits2_pos b).
Proof.
  pose proof (digits2_pos_bound a) as Ha. pose proof (digits2_pos_bound b) as Hb.
  apply (Zdigits2_le (Z.pos (a * b))); [| lia].
  rewrite Z.pow_add_r, Pos2Z.inj_mul by lia.
  split; [lia |].
  apply Z.mul_lt_mono_nonneg; lia.
Qed.

(** The product of a finite number and a factor below 1/4 is finite. *)
Lemma mul_finite (x y : double) :
  valid_binary prec emax x = true -> valid_binary prec emax y = true ->
  is_finite x = true -> is_finite y = true ->
  (forall s m e, y = S754_finite s m e -> e <= -55) ->
  is_finite (mul x y) = true.
Proof.
  intros Vx Vy Fx Fy Hy.
  destruct x as [sx | sx | | sx mx ex], y as [sy | sy | | sy my ey];
    try discriminate; try reflexivity.
  unfold mul; cbn [SFmul].
  destruct (valid_binary_bounds _ _ _ Vx) as [Mx Ex].
  destruct (valid_binary_bounds _ _ _ Vy) as [My Ey].
  specialize (Hy sy my ey eq_refl).
  pose proof (digits2_pos_mul mx my) as Hd.
  assert (Dx : Z.pos (digits2_pos mx) <= 53)
    by (apply (Zdigits2_le (Z.pos mx)); lia).
  assert (Dy : Z.pos (digits2_pos my) <= 53)
    by (apply (Zdigits2_le (Z.pos my)); lia).
  apply binary_round_aux_finite; [lia | cbn [Zdigits2]; lia | lia].
Qed.

(** X10: one row alone never overflows: for every attendee whose distance
    is a finite binary64 number, whatever its size or sign, the footprint
    is finite.  Only the sum over the rows can leave the finite range. *)
Theorem single_footprint_is_finite (attendee : Attendee) :
  valid_binary prec emax (distance attendee) = true ->
  is_finite (distance attendee) = true ->
  is_finite (calculate_attendee_footprint attendee) = true.
Proof.
  intros V F; unfold calculate_attendee_footprint.
  destruct (strcmp (travel_mode attendee) "car" =? 0);
    [apply mul_finite; trivial; intros s m e H; injection H as _ _ <-; lia |].
  destruct (strcmp (travel_mode attendee) "plane" =? 0);
    [apply mul_finite; trivial; intros s m e H; injection H as _ _ <-; lia |].
  destruct (strcmp (travel_mode attendee) "train" =? 0);
    [apply mul_finite; trivial; intros s m e H; injection H as _ _ <-; lia |].
  reflexivity.
Qed.

Lemma single_footprint_is_finite_witness :
  is_finite (calculate_attendee_footprint
               (attendee_of_row (mkAttendeeRow 1 1 "car" DBL_MAX))) = true.
Proof.
  apply (single_footprint_is_finite (attendee_of_row (mkAttendeeRow 1 1 "car" DBL_MAX)));
    reflexivity.
Defined.
